(** * Execution-accuracy harness for text-to-MQL predictions

    A shallow embedding of [evaluation_accuracy.py]: the safety pre-check
    [clean_query], the executor [execute_mongo_query], the comparator
    [compare_results], the batch loop and the final report, followed by the
    properties of the harness. *)

From Stdlib Require Import ZArith QArith SpecFloat Ascii String.
From stdpp Require Import base option list sorting strings pretty gmap.

Set Warnings "-register-all".

Open Scope Z_scope.
Open Scope string_scope.

(** ** Text

    Python [str] values are modelled as [string]: a sequence of characters
    whose code points are below 256. *)

Module Text.

Definition code (c : ascii) : N := N_of_ascii c.

(** [str.lower] on one character: the upper-case letters below code point
    256 are [A]-[Z] and 0xC0-0xDE without the multiplication sign 0xD7. *)
Definition lower_char (c : ascii) : ascii :=
  let n := code c in
  if ((65 <=? n) && (n <=? 90))%N then ascii_of_N (n + 32)
  else if ((192 <=? n) && (n <=? 222) && negb (n =? 215))%N
       then ascii_of_N (n + 32)
  else c.

Fixpoint lower (s : string) : string :=
  match s with
  | EmptyString => EmptyString
  | String c s' => String (lower_char c) (lower s')
  end.

(** [w in s] for two strings: [w] starts at some position of [s]. *)
Fixpoint str_in (w s : string) : bool :=
  String.prefix w s ||
  match s with
  | EmptyString => false
  | String _ s' => str_in w s'
  end.

(** [str.isspace] for one character below code point 256. *)
Definition isspace (c : ascii) : bool :=
  let n := code c in
  (((9 <=? n) && (n <=? 13)) || ((28 <=? n) && (n <=? 32))
   || (n =? 133) || (n =? 160))%N.

Fixpoint lstrip (s : string) : string :=
  match s with
  | EmptyString => EmptyString
  | String c s' => if isspace c then lstrip s' else s
  end.

Fixpoint rstrip (s : string) : string :=
  match s with
  | EmptyString => EmptyString
  | String c s' =>
      match rstrip s' with
      | EmptyString => if isspace c then EmptyString else String c EmptyString
      | r => String c r
      end
  end.

Definition strip (s : string) : string := rstrip (lstrip s).

Definition dquote : string := String "034"%char EmptyString.
Definition newline : string := String "010"%char EmptyString.

End Text.

(** ** Python values

    The values [json.loads] can produce, which are also the values the
    executor returns: its failure sentinels are plain strings. A [PDict]
    keeps its items in insertion order. *)

Inductive pyval : Type :=
| PNone
| PBool (b : bool)
| PInt (n : Z)
| PFloat (f : spec_float)
| PStr (s : string)
| PList (l : list pyval)
| PDict (items : list (string * pyval)).

(** Exceptions that escape the functions of the harness. *)
Inductive py_exn : Type :=
| AttributeError (attr : string)
| ZeroDivisionError
| OverflowError.

Inductive result (A : Type) : Type :=
| Ok (a : A)
| Raise (e : py_exn).
Arguments Ok {A} a.
Arguments Raise {A} e.

(** Sequencing stops at the first exception. *)
#[global] Instance result_ret : MRet result := fun A a => Ok a.
#[global] Instance result_bind : MBind result := fun A B k r =>
  match r with
  | Ok a => k a
  | Raise e => Raise e
  end.

(** A dict must not hold one key twice, at any depth. *)
Fixpoint wf_pyval (v : pyval) : Prop :=
  match v with
  | PList l => (fix all (l : list pyval) : Prop :=
                  match l with
                  | [] => True
                  | x :: l' => wf_pyval x /\ all l'
                  end) l
  | PDict items =>
      NoDup (map fst items) /\
      (fix all (l : list (string * pyval)) : Prop :=
         match l with
         | [] => True
         | (_, x) :: l' => wf_pyval x /\ all l'
         end) items
  | _ => True
  end.

Definition is_nan (f : spec_float) : bool :=
  match f with S754_nan => true | _ => false end.

Definition isinstance_str (v : pyval) : bool :=
  match v with PStr _ => true | _ => false end.

Definition is_None (v : pyval) : bool :=
  match v with PNone => true | _ => false end.

(** ** Safety pre-check *)

Definition forbidden : list string :=
  ["remove"; "drop"; "delete"; "insert"; "update"; "save"; "write"].

(** [query.lower()] exists on strings only: every other value raises
    [AttributeError] when the first keyword is tried. What is returned is
    [None] or the query text. *)
Definition clean_query (query : pyval) : result (option string) :=
  match query with
  | PStr q =>
      if existsb (fun word => Text.str_in word (Text.lower q)) forbidden
      then Ok None
      else Ok (Some q)
  | _ => Raise (AttributeError "lower")
  end.

(** [not query] for what [clean_query] returns: true of [None] and of the
    empty string. *)
Definition not_query (query : option string) : bool :=
  match query with
  | None => true
  | Some q => String.eqb q ""
  end.

(** ** Dicts as item lists *)

Fixpoint dict_get {A : Type} (items : list (string * A)) (key : string)
  : option A :=
  match items with
  | [] => None
  | (k, v) :: items' => if String.eqb k key then Some v else dict_get items' key
  end.

(** [sorted(d.items())]: the keys of a dict are distinct, so the order of
    the pairs is the order of their keys. The sort is stable. *)
Fixpoint insert_by_key {A : Type} (kv : string * A) (l : list (string * A))
  : list (string * A) :=
  match l with
  | [] => [kv]
  | kv' :: l' =>
      if String.leb (fst kv) (fst kv') then kv :: l
      else kv' :: insert_by_key kv l'
  end.

Definition sorted_items {A : Type} (items : list (string * A))
  : list (string * A) :=
  foldr insert_by_key [] items.

(** The order of two items is the order of their keys. *)
Definition key_le {A : Type} (x y : string * A) : Prop :=
  String.le (fst x) (fst y).

(** ** Equality of Python values *)

(** [bool] is a subclass of [int]: [True] is the integer 1. *)
Inductive number : Type :=
| NumInt (n : Z)
| NumFloat (f : spec_float).

Definition as_number (v : pyval) : option number :=
  match v with
  | PBool b => Some (NumInt (Z.b2z b))
  | PInt n => Some (NumInt n)
  | PFloat f => Some (NumFloat f)
  | _ => None
  end.

(** An [int] and a [float] are compared by exact value. *)
Definition int_float_eq (n : Z) (f : spec_float) : bool :=
  match f with
  | S754_zero _ => (n =? 0)%Z
  | S754_finite s m e =>
      let sm := if s then Z.neg m else Z.pos m in
      if (0 <=? e)%Z then (n =? sm * 2 ^ e)%Z else (sm =? n * 2 ^ (- e))%Z
  | _ => false
  end.

Definition num_eq (a b : number) : bool :=
  match a, b with
  | NumInt m, NumInt n => (m =? n)%Z
  | NumFloat f, NumFloat g => SFeqb f g
  | NumInt m, NumFloat g => int_float_eq m g
  | NumFloat f, NumInt n => int_float_eq n f
  end.

(** Two decoded results share no object on which [==] is not reflexive,
    except the decoder's one [NaN] constant: every [NaN] of a decoded value
    is that same object. *)
Definition same_object_nan (x y : pyval) : bool :=
  match x, y with
  | PFloat f, PFloat g => is_nan f && is_nan g
  | _, _ => false
  end.

(** [x == y]. Items of lists and values of dicts are compared as the
    containers do it: identical objects are equal without asking [==]. *)
Fixpoint py_eq (x y : pyval) : bool :=
  match x with
  | PNone => is_None y
  | PStr a => match y with PStr b => String.eqb a b | _ => false end
  | PList a =>
      match y with
      | PList b =>
          (fix all2 (a b : list pyval) : bool :=
             match a, b with
             | [], [] => true
             | u :: a', v :: b' =>
                 (same_object_nan u v || py_eq u v) && all2 a' b'
             | _, _ => false
             end) a b
      | _ => false
      end
  | PDict a =>
      match y with
      | PDict b =>
          Nat.eqb (length a) (length b) &&
          (fix all (a : list (string * pyval)) : bool :=
             match a with
             | [] => true
             | (k, u) :: a' =>
                 match dict_get b k with
                 | Some v => same_object_nan u v || py_eq u v
                 | None => false
                 end && all a'
             end) a
      | _ => false
      end
  | PBool _ | PInt _ | PFloat _ =>
      match as_number x, as_number y with
      | Some m, Some n => num_eq m n
      | _, _ => false
      end
  end.

(** ** Canonical encoding: [json.dumps(x, sort_keys=True)] *)

Module Json.

Definition hex_digit (n : N) : ascii :=
  if (n <? 10)%N then ascii_of_N (48 + n) else ascii_of_N (87 + n).

(** One character of a string, as [ensure_ascii] writes it. *)
Definition escape_char (c : ascii) : string :=
  let n := Text.code c in
  if (n =? 34)%N then "\" ++ Text.dquote
  else if (n =? 92)%N then "\\"
  else if (n =? 10)%N then "\n"
  else if (n =? 13)%N then "\r"
  else if (n =? 9)%N then "\t"
  else if (n =? 8)%N then "\b"
  else if (n =? 12)%N then "\f"
  else if ((n <? 32) || (126 <? n))%N
       then "\u00" ++ String (hex_digit (n / 16)) (String (hex_digit (n mod 16)) "")
  else String c "".

Fixpoint escape (s : string) : string :=
  match s with
  | EmptyString => EmptyString
  | String c s' => escape_char c ++ escape s'
  end.

Definition encode_str (s : string) : string :=
  Text.dquote ++ escape s ++ Text.dquote.

Section Dumps.

(** [float.__repr__] on a finite float: the shortest decimal text that
    reads back as the same float. *)
Variable float_repr : spec_float -> string.

Definition floatstr (f : spec_float) : string :=
  match f with
  | S754_nan => "NaN"
  | S754_infinity false => "Infinity"
  | S754_infinity true => "-Infinity"
  | _ => float_repr f
  end.

(** The values of a dict are encoded in place and the encoded items are
    then put in key order: the order depends on the keys only, so this is
    the encoding of the sorted items. *)
Fixpoint dumps (v : pyval) : string :=
  match v with
  | PNone => "null"
  | PBool true => "true"
  | PBool false => "false"
  | PInt n => pretty n
  | PFloat f => floatstr f
  | PStr s => encode_str s
  | PList l =>
      "[" ++ String.concat ", "
               ((fix each (l : list pyval) : list string :=
                   match l with
                   | [] => []
                   | x :: l' => dumps x :: each l'
                   end) l) ++ "]"
  | PDict items =>
      "{" ++ String.concat ", "
               (map (fun kv => encode_str (fst kv) ++ ": " ++ snd kv)
                  (sorted_items
                     ((fix each (l : list (string * pyval))
                         : list (string * string) :=
                         match l with
                         | [] => []
                         | (k, x) :: l' => (k, dumps x) :: each l'
                         end) items))) ++ "}"
  end.

(** An item with its value encoded, and the text of such an item. *)
Definition encode_item (kv : string * pyval) : string * string :=
  (fst kv, dumps (snd kv)).

End Dumps.

Definition item_text (kv : string * string) : string :=
  encode_str (fst kv) ++ ": " ++ snd kv.

End Json.

(** ** Result comparator *)

Definition isinstance_number (v : pyval) : bool :=
  match v with PBool _ | PInt _ | PFloat _ => true | _ => false end.

Section Comparator.

Variable float_repr : spec_float -> string.

Definition canonical_set (docs : list pyval) : gset string :=
  list_to_set (map (Json.dumps float_repr) docs).

(** [json.dumps] does not fail on a decoded value, so the [except] branch
    of the source has no counterpart here. *)
Definition compare_results (gold_res pred_res : pyval) : bool :=
  if isinstance_str gold_res || isinstance_str pred_res then false
  else if is_None gold_res || is_None pred_res then false
  else if isinstance_number gold_res && isinstance_number pred_res
       then py_eq gold_res pred_res
  else match gold_res, pred_res with
       | PList g, PList p =>
           if negb (Nat.eqb (length g) (length p)) then false
           else if py_eq gold_res pred_res then true
           else bool_decide (canonical_set g = canonical_set p)
       | _, _ => false
       end.

End Comparator.

(** ** Query executor *)

(** What [subprocess.run] does: the process completes with its decoded
    standard output and return code, the program is not found, or another
    exception is raised, whose text is [str(e)]. *)
Inductive proc_outcome : Type :=
| Completed (stdout : string) (returncode : Z)
| FileNotFound
| OtherException (msg : string).

(** A computation that returns at once or starts the shell once and goes on
    with what the shell did. *)
Inductive action (A : Type) : Type :=
| Return (a : A)
| SubprocessRun (db_name : pyval) (js_script : string)
    (k : proc_outcome -> A).
Arguments Return {A} a.
Arguments SubprocessRun {A} db_name js_script k.

Definition contacts_backend {A : Type} (act : action A) : bool :=
  match act with Return _ => false | SubprocessRun _ _ _ => true end.

(** The text an f-string puts in for [{query}]. *)
Definition format_query (query : option string) : string :=
  match query with
  | None => "None"
  | Some q => q
  end.

Definition js_script (query : string) : string :=
  String.concat Text.newline
    [ "";
      "    try {";
      "        var res = " ++ query ++ ";";
      "        if (res && typeof res.toArray === 'function') {";
      "            print(JSON.stringify(res.toArray()));";
      "        } else {";
      "            print(JSON.stringify(res));";
      "        }";
      "    } catch (e) {";
      "        print(" ++ Text.dquote ++ "ERROR: " ++ Text.dquote
        ++ " + e.message);";
      "    }";
      "    " ].

(** What [json.loads] does with a text: it decodes it, raises
    [JSONDecodeError], or raises another exception, whose text is
    [str(e)]. *)
Inductive loads_outcome : Type :=
| Decoded (v : pyval)
| JSONDecodeError
| LoadsException (msg : string).

Section Executor.

(** The shell, for a database name and a script: what one call of
    [subprocess.run] comes to. It is taken as a function of the two, so a
    script that is run twice comes to the same outcome twice; the source
    starts a process for every call. *)
Variable run_mongosh : pyval -> string -> proc_outcome.
(** [json.loads]. *)
Variable json_loads : string -> loads_outcome.

Definition decode_outcome (out : proc_outcome) : pyval :=
  match out with
  | Completed stdout returncode =>
      let output := Text.strip stdout in
      if Text.str_in "ERROR:" output || negb (returncode =? 0)%Z
      then PStr ("EXECUTION_ERROR: " ++ output)
      else match json_loads output with
           | Decoded v => v
           | JSONDecodeError => PStr "JSON_PARSE_ERROR"
           | LoadsException msg => PStr ("SYSTEM_ERROR: " ++ msg)
           end
  | FileNotFound => PStr "MONGOSH_NOT_FOUND"
  | OtherException msg => PStr ("SYSTEM_ERROR: " ++ msg)
  end.

(** [execute_mongo_query] up to the point where the shell is started. *)
Definition execute_mongo_query_act (db_name query : pyval)
  : result (action pyval) :=
  query ← clean_query query;
  if not_query query then Ok (Return (PStr "UNSAFE_OR_EMPTY"))
  else Ok (SubprocessRun db_name (js_script (format_query query))
             decode_outcome).

Definition perform {A : Type} (act : action A) : A :=
  match act with
  | Return a => a
  | SubprocessRun db_name script k => k (run_mongosh db_name script)
  end.

Definition execute_mongo_query (db_name query : pyval) : result pyval :=
  act ← execute_mongo_query_act db_name query;
  Ok (perform act).

End Executor.

(** ** Batch loop and report

    The log is a file written as utf-8. The texts of this development hold
    code points below 256, which utf-8 always encodes, so that adding a
    record to the log raises nothing here. A text with a lone surrogate, on
    which the write of the source raises [UnicodeEncodeError], is outside
    this domain; what is stated of the loop is stated of runs that
    complete. *)

Inductive log_record : Type :=
| LogExecutionError (q_id pred_mql pred_result : pyval)
| LogMismatch (q_id gold_mql pred_mql gold_result pred_result : pyval).

Record ScoreState : Type := mkScore {
  correct_count : Z;
  total_count : Z;
  execution_errors : Z;
  log_file : list log_record
}.

Definition initial_state : ScoreState := mkScore 0 0 0 [].

(** [entry.get(key)]: [None] when the key is missing; an entry that is not a
    dict has no [get]. *)
Definition entry_get (entry : pyval) (key : string) : result pyval :=
  match entry with
  | PDict items => Ok (default PNone (dict_get items key))
  | _ => Raise (AttributeError "get")
  end.

Definition is_error_text (pred_result : pyval) : bool :=
  match pred_result with
  | PStr s => Text.str_in "ERROR" s
  | _ => false
  end.

(** ** Floats of the report

    A Python [float] is a binary64 number: precision 53, exponents below
    1024, every operation rounded to the nearest float, ties to even. *)

(** An [int] as the operand of a division: no rounding takes place before
    the quotient is rounded. *)
Definition int_as_float (n : Z) : spec_float :=
  match n with
  | Z0 => S754_zero false
  | Zpos p => S754_finite false p 0
  | Zneg p => S754_finite true p 0
  end.

(** [float(n)]. *)
Definition float_of_int (n : Z) : spec_float :=
  binary_normalize 53 1024 n 0 false.

(** The number of low bits that rounding removes from a mantissa [m] at
    exponent [e]: the shift that [shr_fexp] applies. *)
Definition shift_amount (m e : Z) : Z :=
  Z.max (fexp 53 1024 (Zdigits2 m + e) - e) 0.

(** [a / b] on two [int]s: the quotient rounded once. *)
Definition true_divide (a b : Z) : result spec_float :=
  if (b =? 0)%Z then Raise ZeroDivisionError
  else match SFdiv 53 1024 (int_as_float a) (int_as_float b) with
       | S754_infinity _ => Raise OverflowError
       | q => Ok q
       end.

(** The exact value of a finite float. *)
Definition float_value (f : spec_float) : option Q :=
  match f with
  | S754_zero _ => Some 0%Q
  | S754_finite s m e =>
      let z := if s then Zneg m else Zpos m in
      Some (if (0 <=? e)%Z then inject_Z (z * 2 ^ e)
            else Qmake z (Z.to_pos (2 ^ (- e))))
  | S754_infinity _ | S754_nan => None
  end.

Definition number_value (n : number) : option Q :=
  match n with
  | NumInt z => Some (inject_Z z)
  | NumFloat f => float_value f
  end.

Record Report : Type := mkReport {
  report_total : Z;
  report_correct : Z;
  report_incorrect : Z;
  report_errors : Z;
  report_accuracy : number
}.

(** [(correct_count / total_count) * 100 if total_count > 0 else 0]: a
    float, or the [int] 0. The two decimals of the printed line are not
    part of the value. *)
Definition accuracy (correct_count total_count : Z) : result number :=
  if (0 <? total_count)%Z then
    q ← true_divide correct_count total_count;
    Ok (NumFloat (SFmul 53 1024 q (float_of_int 100)))
  else Ok (NumInt 0).

Definition report (st : ScoreState) : result Report :=
  acc ← accuracy (correct_count st) (total_count st);
  Ok (mkReport (total_count st) (correct_count st)
        (total_count st - correct_count st) (execution_errors st) acc).

Section Batch.

Variable float_repr : spec_float -> string.
Variable run_mongosh : pyval -> string -> proc_outcome.
Variable json_loads : string -> loads_outcome.

Definition process_entry (st : ScoreState) (entry : pyval)
  : result ScoreState :=
  let total := (total_count st + 1)%Z in
  q_id ← entry_get entry "question_id";
  db_id ← entry_get entry "db_id";
  gold_mql ← entry_get entry "gold_mql";
  pred_mql ← entry_get entry "generated_mql";
  gold_result ← execute_mongo_query run_mongosh json_loads db_id gold_mql;
  pred_result ← execute_mongo_query run_mongosh json_loads db_id pred_mql;
  if is_error_text pred_result then
    Ok (mkScore (correct_count st) total (execution_errors st + 1)
            (log_file st ++ [LogExecutionError q_id pred_mql pred_result]))
  else if compare_results float_repr gold_result pred_result then
    Ok (mkScore (correct_count st + 1) total (execution_errors st)
            (log_file st))
  else
    Ok (mkScore (correct_count st) total (execution_errors st)
            (log_file st
               ++ [LogMismatch q_id gold_mql pred_mql gold_result pred_result])).

Fixpoint run_loop (st : ScoreState) (data : list pyval) : result ScoreState :=
  match data with
  | [] => Ok st
  | entry :: rest => st' ← process_entry st entry; run_loop st' rest
  end.

Definition main (data : list pyval) : result Report :=
  st ← run_loop initial_state data;
  report st.

End Batch.

(** ** What a record comes to

    The two results of a record, and the one of three ways in which the loop
    body counts the record. *)

Inductive verdict : Type :=
| ExecutionError
| Correct
| Incorrect.

#[global] Instance verdict_eq_dec : EqDecision verdict.
Proof. solve_decision. Defined.

Section Verdicts.

Variable float_repr : spec_float -> string.
Variable run_mongosh : pyval -> string -> proc_outcome.
Variable json_loads : string -> loads_outcome.

Definition entry_results (entry : pyval) : result (pyval * pyval) :=
  _ ← entry_get entry "question_id";
  db_id ← entry_get entry "db_id";
  gold_mql ← entry_get entry "gold_mql";
  pred_mql ← entry_get entry "generated_mql";
  gold_result ← execute_mongo_query run_mongosh json_loads db_id gold_mql;
  pred_result ← execute_mongo_query run_mongosh json_loads db_id pred_mql;
  Ok (gold_result, pred_result).

Fixpoint batch_results (data : list pyval) : result (list (pyval * pyval)) :=
  match data with
  | [] => Ok []
  | entry :: rest =>
      r ← entry_results entry;
      rs ← batch_results rest;
      Ok (r :: rs)
  end.

Definition judge (r : pyval * pyval) : verdict :=
  if is_error_text (snd r) then ExecutionError
  else if compare_results float_repr (fst r) (snd r) then Correct
  else Incorrect.

Definition count_verdict (v : verdict) (rs : list (pyval * pyval)) : Z :=
  Z.of_nat (length (filter (fun r => judge r = v) rs)).

End Verdicts.

Definition is_mismatch (l : log_record) : bool :=
  match l with LogMismatch _ _ _ _ _ => true | LogExecutionError _ _ _ => false end.

Definition count_mismatches (log : list log_record) : Z :=
  Z.of_nat (length (filter (fun l => is_mismatch l = true) log)).

(** What the loop body does to the counters, by the verdict. *)
Definition counted (v : verdict) (st st' : ScoreState) : Prop :=
  total_count st' = total_count st + 1
  /\ match v with
     | ExecutionError =>
         execution_errors st' = execution_errors st + 1
         /\ correct_count st' = correct_count st
         /\ count_mismatches (log_file st') = count_mismatches (log_file st)
     | Correct =>
         execution_errors st' = execution_errors st
         /\ correct_count st' = correct_count st + 1
         /\ count_mismatches (log_file st') = count_mismatches (log_file st)
     | Incorrect =>
         execution_errors st' = execution_errors st
         /\ correct_count st' = correct_count st
         /\ count_mismatches (log_file st')
            = count_mismatches (log_file st) + 1
     end.

(** ** Words of the specification *)

(** [w] occurs in [q] when case is ignored: some stretch of [q] is [w] once
    it is put in lower case. *)
Definition contains_ignoring_case (q w : string) : Prop :=
  exists pre mid post, q = pre ++ mid ++ post /\ Text.lower mid = w.

(** A query the safety pre-check turns down: it names a forbidden keyword,
    or it is empty. *)
Definition unsafe_or_empty (q : string) : Prop :=
  q = "" \/ exists w, In w forbidden /\ contains_ignoring_case q w.

(** Two values that differ at most in the order in which their dicts, at
    any depth, hold their items. *)
Inductive key_reorder : pyval -> pyval -> Prop :=
| kr_same v : key_reorder v v
| kr_list a b :
    Forall2 key_reorder a b -> key_reorder (PList a) (PList b)
| kr_dict a b' b :
    Forall2 (fun x y => fst x = fst y /\ key_reorder (snd x) (snd y)) a b' ->
    b' ≡ₚ b ->
    key_reorder (PDict a) (PDict b).

(** The results with which the executor reports that a query did not
    succeed. *)
Inductive failure_result : pyval -> Prop :=
| fail_unsafe : failure_result (PStr "UNSAFE_OR_EMPTY")
| fail_execution output : failure_result (PStr ("EXECUTION_ERROR: " ++ output))
| fail_parse : failure_result (PStr "JSON_PARSE_ERROR")
| fail_not_found : failure_result (PStr "MONGOSH_NOT_FOUND")
| fail_system msg : failure_result (PStr ("SYSTEM_ERROR: " ++ msg)).

(** The shell ran the query without error and its output decodes to [v]. *)
Definition succeeds_with (json_loads : string -> loads_outcome)
  (out : proc_outcome) (v : pyval) : Prop :=
  exists stdout,
    out = Completed stdout 0
    /\ Text.str_in "ERROR:" (Text.strip stdout) = false
    /\ json_loads (Text.strip stdout) = Decoded v.

(** A record the loop body can work on: a dict whose two queries are
    texts. *)
Definition well_formed_entry (entry : pyval) : Prop :=
  exists items gq pq,
    entry = PDict items
    /\ dict_get items "gold_mql" = Some (PStr gq)
    /\ dict_get items "generated_mql" = Some (PStr pq).

(** [st'] is [st] with the counters of [d] added and the log of [d]
    appended. *)
Definition advanced (d st st' : ScoreState) : Prop :=
  correct_count st' = correct_count st + correct_count d
  /\ total_count st' = total_count st + total_count d
  /\ execution_errors st' = execution_errors st + execution_errors d
  /\ log_file st' = (log_file st ++ log_file d)%list.

(** The verdict on a record whose two results are the same value [v]. *)
Definition same_result_verdict (v : pyval) : verdict :=
  if is_error_text v then ExecutionError
  else match v with
       | PList _ | PBool _ | PInt _ => Correct
       | PFloat f => if is_nan f then Incorrect else Correct
       | PNone | PStr _ | PDict _ => Incorrect
       end.

(** ** Words about the shell *)

(** A text made of white space only. *)
Fixpoint all_space (s : string) : bool :=
  match s with
  | EmptyString => true
  | String c s' => Text.isspace c && all_space s'
  end.

(** The shell ran and the executor reports a failure with ERROR in its
    name: the run printed an error or ended with a return code other than
    0, its output does not decode, or starting it raised an exception other
    than the one for a program that is not found. *)
Definition shell_failure (json_loads : string -> loads_outcome)
  (out : proc_outcome) : Prop :=
  match out with
  | Completed stdout returncode =>
      Text.str_in "ERROR:" (Text.strip stdout) = true
      \/ returncode <> 0
      \/ (forall v, json_loads (Text.strip stdout) <> Decoded v)
  | FileNotFound => False
  | OtherException _ => True
  end.

(** ** A small test bench

    A shell and a decoder that know a handful of queries and outputs, for
    running the harness on concrete batches. No float occurs in their
    outputs. *)

Module Bench.

Definition float_repr (f : spec_float) : string := "0.0".

Definition out_ab : string :=
  "[{" ++ Text.dquote ++ "a" ++ Text.dquote ++ ":1},{"
       ++ Text.dquote ++ "a" ++ Text.dquote ++ ":2}]".
Definition out_str : string := Text.dquote ++ "ok" ++ Text.dquote.
Definition out_audit : string :=
  Text.dquote ++ "3 ERRORS LOGGED" ++ Text.dquote.

Definition run_mongosh (db_name : pyval) (script : string) : proc_outcome :=
  if Text.str_in "db.users.find()" script then Completed (out_ab ++ Text.newline) 0
  else if Text.str_in "db.users.count()" script then Completed "2" 0
  else if Text.str_in "db.users.name()" script then Completed out_str 0
  else if Text.str_in "db.users.oops()" script
       then Completed "ERROR: oops is not a function" 0
  else if Text.str_in "db.users.garbled()" script then Completed "[1," 0
  else if Text.str_in "db.users.crash()" script then Completed "" 1
  else if Text.str_in "db.users.audit()" script then Completed out_audit 0
  else FileNotFound.

Definition doc (n : Z) : pyval := PDict [("a", PInt n)].

Definition json_loads (output : string) : loads_outcome :=
  if String.eqb output out_ab then Decoded (PList [doc 1; doc 2])
  else if String.eqb output "2" then Decoded (PInt 2)
  else if String.eqb output out_str then Decoded (PStr "ok")
  else if String.eqb output out_audit then Decoded (PStr "3 ERRORS LOGGED")
  else JSONDecodeError.

Definition entry (q_id : Z) (gold pred : string) : pyval :=
  PDict [("question_id", PInt q_id); ("db_id", PStr "shop");
         ("gold_mql", PStr gold); ("generated_mql", PStr pred)].

Definition execute : pyval -> pyval -> result pyval :=
  execute_mongo_query run_mongosh json_loads.

Definition compare : pyval -> pyval -> bool := compare_results float_repr.

Definition run : list pyval -> result ScoreState :=
  run_loop float_repr run_mongosh json_loads initial_state.

(** Two lists of three documents: the first holds [doc 1] twice, the
    second [doc 2] twice. *)
Definition dup_gold : list pyval := [doc 1; doc 1; doc 2].
Definition dup_pred : list pyval := [doc 1; doc 2; doc 2].

(** Three records: both queries succeed with the same documents; the
    predicted query fails in the shell; the gold query fails in the
    shell. *)
Definition sample_batch : list pyval :=
  [entry 1 "db.users.find()" "db.users.find()";
   entry 2 "db.users.find()" "db.users.oops()";
   entry 3 "db.users.oops()" "db.users.find()"].

(** One dict written in two orders, also inside. *)
Definition nested_ab : list (string * pyval) :=
  [("a", PInt 1); ("b", PDict [("x", PStr "u"); ("y", PList [PNone])])].
Definition nested_ba : list (string * pyval) :=
  [("b", PDict [("y", PList [PNone]); ("x", PStr "u")]); ("a", PInt 1)].

(** A record whose predicted query the test shell does not know: the
    program that runs it is not found. *)
Definition lost_entry : pyval := entry 5 "db.users.find()" "db.orders.find()".

(** An output that decodes, with the error marker inside a text of its
    data. *)
Definition out_marked : string :=
  "[{" ++ Text.dquote ++ "note" ++ Text.dquote ++ ":" ++ Text.dquote
       ++ "ERROR: none" ++ Text.dquote ++ "}]".


(** The number a test document carries, for telling the lists apart. *)
Definition weight (v : pyval) : nat :=
  match v with
  | PDict [(_, PInt n)] => Z.to_nat n
  | _ => 0%nat
  end.

End Bench.

(** * Properties *)

(** ** The test bench at work *)

Example bench_find :
  Bench.execute (PStr "shop") (PStr "db.users.find()")
  = Ok (PList [Bench.doc 1; Bench.doc 2]).
Proof. vm_compute. reflexivity. Qed.

Example bench_dumps :
  Json.dumps Bench.float_repr
    (PList [PDict [("b", PInt (-2)); ("a", PStr "x\y")]; PNone; PBool true])
  = "[{" ++ Text.dquote ++ "a" ++ Text.dquote ++ ": " ++ Text.dquote ++ "x\\y"
      ++ Text.dquote ++ ", " ++ Text.dquote ++ "b" ++ Text.dquote
      ++ ": -2}, null, true]".
Proof. vm_compute. reflexivity. Qed.

Example bench_compare_perm :
  Bench.compare (PList [Bench.doc 1; Bench.doc 2]) (PList [Bench.doc 2; Bench.doc 1]) = true.
Proof. vm_compute. reflexivity. Qed.

Example bench_compare_dup :
  Bench.compare (PList [Bench.doc 1; Bench.doc 1; Bench.doc 2])
    (PList [Bench.doc 1; Bench.doc 2; Bench.doc 2]) = true.
Proof. vm_compute. reflexivity. Qed.

(** ** Text *)

Lemma lower_app a b : Text.lower (a ++ b) = Text.lower a ++ Text.lower b.
Proof. induction a as [|c a IH]; simpl; [reflexivity | now rewrite IH]. Qed.

Lemma prefix_app w s : String.prefix w (w ++ s) = true.
Proof.
  induction w as [|c w IH]; simpl.
  - now destruct s.
  - destruct (ascii_dec c c); [exact IH | contradiction].
Qed.

Lemma str_in_prefix w s : String.prefix w s = true -> Text.str_in w s = true.
Proof. intros H. destruct s; cbn [Text.str_in]; rewrite H; reflexivity. Qed.

Lemma str_in_app w pre post : Text.str_in w (pre ++ w ++ post) = true.
Proof.
  induction pre as [|c pre IH].
  - change ("" ++ w ++ post) with (w ++ post).
    apply str_in_prefix, prefix_app.
  - change (String c pre ++ w ++ post) with (String c (pre ++ w ++ post)).
    cbn [Text.str_in]. rewrite IH. apply orb_true_r.
Qed.

Lemma contains_ignoring_case_str_in q w :
  contains_ignoring_case q w -> Text.str_in w (Text.lower q) = true.
Proof.
  intros (pre & mid & post & -> & <-).
  rewrite !lower_app. apply str_in_app.
Qed.

(** ** Safety pre-check *)

Lemma clean_query_unsafe q w :
  In w forbidden -> contains_ignoring_case q w -> clean_query (PStr q) = Ok None.
Proof.
  intros Hin Hc. unfold clean_query.
  assert (existsb (fun word => Text.str_in word (Text.lower q)) forbidden = true)
    as ->; [|reflexivity].
  apply existsb_exists. exists w. split; [exact Hin|].
  now apply contains_ignoring_case_str_in.
Qed.

Lemma clean_query_str q :
  exists r, clean_query (PStr q) = Ok r /\ (r = None \/ r = Some q).
Proof.
  unfold clean_query.
  destruct (existsb _ forbidden); eauto.
Qed.

(** A query that is turned down returns the sentinel before the shell is
    started. *)
Lemma unsafe_or_empty_returns_sentinel json_loads db_name q :
  unsafe_or_empty q ->
  execute_mongo_query_act json_loads db_name (PStr q)
  = Ok (Return (PStr "UNSAFE_OR_EMPTY")).
Proof.
  intros [-> | (w & Hin & Hc)]; unfold execute_mongo_query_act.
  - reflexivity.
  - rewrite (clean_query_unsafe q w Hin Hc). reflexivity.
Qed.

Lemma unsafe_or_empty_execute run_mongosh json_loads db_name q :
  unsafe_or_empty q ->
  execute_mongo_query run_mongosh json_loads db_name (PStr q)
  = Ok (PStr "UNSAFE_OR_EMPTY").
Proof.
  intros H. unfold execute_mongo_query.
  rewrite (unsafe_or_empty_returns_sentinel json_loads db_name q H).
  reflexivity.
Qed.

(** Such a query never reaches the shell, and every other query text
    does. *)
Lemma unsafe_or_empty_no_backend json_loads db_name q act :
  unsafe_or_empty q ->
  execute_mongo_query_act json_loads db_name (PStr q) = Ok act ->
  contacts_backend act = false.
Proof.
  intros H. rewrite (unsafe_or_empty_returns_sentinel json_loads db_name q H).
  intros [= <-]. reflexivity.
Qed.

Lemma accepted_query_contacts_backend json_loads db_name q :
  q <> "" ->
  existsb (fun word => Text.str_in word (Text.lower q)) forbidden = false ->
  execute_mongo_query_act json_loads db_name (PStr q)
  = Ok (SubprocessRun db_name (js_script q) (decode_outcome json_loads)).
Proof.
  intros Hne Hsafe. unfold execute_mongo_query_act, clean_query.
  rewrite Hsafe. cbn [mbind result_bind not_query format_query].
  destruct (String.eqb_spec q ""); [contradiction | reflexivity].
Qed.

(** A query given as text never makes the executor raise. *)
Lemma execute_str_ok run_mongosh json_loads db_name q :
  exists v, execute_mongo_query run_mongosh json_loads db_name (PStr q) = Ok v.
Proof.
  unfold execute_mongo_query, execute_mongo_query_act.
  destruct (clean_query_str q) as (r & -> & _). simpl.
  destruct (not_query r); simpl; eauto.
Qed.

(** Whatever the shell does, a run that is not a decoded success ends in
    one of the failure results. *)
Lemma decode_outcome_cases json_loads out :
  failure_result (decode_outcome json_loads out)
  \/ succeeds_with json_loads out (decode_outcome json_loads out).
Proof.
  destruct out as [stdout rc| |msg]; simpl; try (left; constructor).
  destruct (Text.str_in "ERROR:" (Text.strip stdout)) eqn:He; simpl;
    [left; constructor|].
  destruct (Z.eqb_spec rc 0) as [->|Hrc]; simpl; [|left; constructor].
  destruct (json_loads (Text.strip stdout)) as [v| |msg] eqn:Hj;
    [right | left; constructor | left; constructor].
  exists stdout. auto.
Qed.

(** ** Failure results and the comparator *)

Lemma failure_result_is_str v : failure_result v -> isinstance_str v = true.
Proof. now destruct 1. Qed.

Lemma compare_results_str_l float_repr s pred_res :
  compare_results float_repr (PStr s) pred_res = false.
Proof. reflexivity. Qed.

Lemma compare_results_str_r float_repr gold_res s :
  compare_results float_repr gold_res (PStr s) = false.
Proof. unfold compare_results. simpl. now rewrite orb_true_r. Qed.

(** C5: when the gold result or the predicted result is one of the failure
    results of the executor, [compare_results] returns false; two equal
    failures do not match either. *)
Theorem failure_never_matches float_repr gold_res pred_res :
  failure_result gold_res \/ failure_result pred_res ->
  compare_results float_repr gold_res pred_res = false.
Proof.
  intros [H | H]; apply failure_result_is_str in H.
  - destruct gold_res; try discriminate. apply compare_results_str_l.
  - destruct pred_res; try discriminate. apply compare_results_str_r.
Qed.

Lemma failure_never_matches_witness :
  (failure_result (PStr "JSON_PARSE_ERROR")
   \/ failure_result (PStr "JSON_PARSE_ERROR"))
  /\ Bench.compare (PStr "JSON_PARSE_ERROR") (PStr "JSON_PARSE_ERROR") = false.
Proof.
  split.
  - left. constructor.
  - apply (failure_never_matches Bench.float_repr). left. constructor.
Defined.

Lemma succeeds_with_decode json_loads out v :
  succeeds_with json_loads out v -> decode_outcome json_loads out = v.
Proof.
  intros (stdout & -> & He & Hj). simpl. now rewrite He, Hj.
Qed.

(** C10: when both queries run without error and both outputs decode to
    strings, the executor hands these strings to the comparator, which
    returns false, also for two equal strings. *)
Theorem string_success_never_matches float_repr json_loads gold_out pred_out a b :
  succeeds_with json_loads gold_out (PStr a) ->
  succeeds_with json_loads pred_out (PStr b) ->
  decode_outcome json_loads gold_out = PStr a
  /\ decode_outcome json_loads pred_out = PStr b
  /\ compare_results float_repr (decode_outcome json_loads gold_out)
       (decode_outcome json_loads pred_out) = false.
Proof.
  intros Hg Hp.
  rewrite (succeeds_with_decode _ _ _ Hg), (succeeds_with_decode _ _ _ Hp).
  repeat split. 
Qed.

Lemma bench_name_succeeds :
  succeeds_with Bench.json_loads (Completed Bench.out_str 0) (PStr "ok").
Proof. exists Bench.out_str. repeat split. Qed.

Lemma string_success_never_matches_witness :
  Bench.execute (PStr "shop") (PStr "db.users.name()") = Ok (PStr "ok")
  /\ Bench.compare
       (decode_outcome Bench.json_loads (Completed Bench.out_str 0))
       (decode_outcome Bench.json_loads (Completed Bench.out_str 0)) = false.
Proof.
  split; [vm_compute; reflexivity|].
  apply (string_success_never_matches Bench.float_repr Bench.json_loads
           _ _ "ok" "ok" bench_name_succeeds bench_name_succeeds).
Defined.

(** ** Absent query text *)

(** C7: for a query that is absent ([None]) the executor does not return
    the sentinel: the pre-check raises [AttributeError], whatever the shell
    and the decoder are. *)
Theorem execute_absent_query_raises run_mongosh json_loads db_name :
  execute_mongo_query run_mongosh json_loads db_name PNone
  = Raise (AttributeError "lower").
Proof. reflexivity. Qed.

Lemma entry_get_missing items key :
  dict_get items key = None -> entry_get (PDict items) key = Ok PNone.
Proof. intros H. unfold entry_get. now rewrite H. Qed.

Lemma entry_get_present items key v :
  dict_get items key = Some v -> entry_get (PDict items) key = Ok v.
Proof. intros H. unfold entry_get. now rewrite H. Qed.

(** C6: a record without its gold query, or with a gold query text and
    without its predicted query, makes the loop body raise
    [AttributeError]; no sentinel is returned for the missing field. *)
Theorem missing_query_field_raises float_repr run_mongosh json_loads st items :
  dict_get items "gold_mql" = None
  \/ ((exists g, dict_get items "gold_mql" = Some (PStr g))
      /\ dict_get items "generated_mql" = None) ->
  process_entry float_repr run_mongosh json_loads st (PDict items)
  = Raise (AttributeError "lower").
Proof.
  intros [Hg | [(g & Hg) Hp]]; unfold process_entry.
  - rewrite (entry_get_missing _ _ Hg). simpl. reflexivity.
  - rewrite (entry_get_present _ _ _ Hg), (entry_get_missing _ _ Hp). simpl.
    destruct (execute_str_ok run_mongosh json_loads
                (default PNone (dict_get items "db_id")) g) as (v & ->).
    reflexivity.
Qed.

Lemma missing_query_field_raises_witness :
  dict_get [("question_id", PInt 7); ("db_id", PStr "shop");
            ("generated_mql", PStr "db.users.find()")] "gold_mql" = None
  /\ Bench.run [PDict [("question_id", PInt 7); ("db_id", PStr "shop");
                       ("generated_mql", PStr "db.users.find()")]]
     = Raise (AttributeError "lower").
Proof.
  split; [reflexivity|].
  unfold Bench.run. cbn [run_loop].
  rewrite (missing_query_field_raises Bench.float_repr Bench.run_mongosh
             Bench.json_loads initial_state); [reflexivity|].
  left. reflexivity.
Defined.

(** ** Lists of documents *)

Lemma compare_results_lists float_repr g p :
  compare_results float_repr (PList g) (PList p)
  = if negb (Nat.eqb (length g) (length p)) then false
    else if py_eq (PList g) (PList p) then true
    else bool_decide (canonical_set float_repr g = canonical_set float_repr p).
Proof. reflexivity. Qed.

Lemma compare_results_lists_iff float_repr g p :
  length g = length p ->
  compare_results float_repr (PList g) (PList p) = true
  <-> py_eq (PList g) (PList p) = true
      \/ canonical_set float_repr g = canonical_set float_repr p.
Proof.
  intros Hlen. rewrite compare_results_lists, Hlen, Nat.eqb_refl.
  cbn [negb]. destruct (py_eq (PList g) (PList p)).
  - intuition.
  - rewrite bool_decide_eq_true. intuition discriminate.
Qed.

Lemma canonical_set_permutation float_repr g p :
  g ≡ₚ p -> canonical_set float_repr g = canonical_set float_repr p.
Proof. intros H. unfold canonical_set. now rewrite H. Qed.

(** C1: two lists of documents of which one is a permutation of the other
    are judged equal by [compare_results]. *)
Theorem compare_results_permutation float_repr g p :
  g ≡ₚ p -> compare_results float_repr (PList g) (PList p) = true.
Proof.
  intros H. apply compare_results_lists_iff.
  - now apply Permutation_length.
  - right. now apply canonical_set_permutation.
Qed.

Lemma compare_results_permutation_witness :
  [Bench.doc 1; Bench.doc 2; Bench.doc 3] ≡ₚ [Bench.doc 3; Bench.doc 1; Bench.doc 2]
  /\ Bench.compare (PList [Bench.doc 1; Bench.doc 2; Bench.doc 3])
       (PList [Bench.doc 3; Bench.doc 1; Bench.doc 2]) = true.
Proof.
  assert ([Bench.doc 1; Bench.doc 2; Bench.doc 3]
          ≡ₚ [Bench.doc 3; Bench.doc 1; Bench.doc 2]) as H.
  { symmetry. apply (Permutation_cons_append [_; _]). }
  split; [exact H|].
  exact (compare_results_permutation Bench.float_repr _ _ H).
Defined.

Lemma bench_dup_not_permutation : ~ Bench.dup_gold ≡ₚ Bench.dup_pred.
Proof.
  intros H.
  assert (sum_list_with Bench.weight Bench.dup_gold
          = sum_list_with Bench.weight Bench.dup_pred) as E by now rewrite H.
  vm_compute in E. discriminate E.
Qed.

(** C2, as stated, fails: two lists of equal length that are not
    permutations of each other, one with a document twice where the other
    has a different document twice, are judged equal. *)
Lemma duplicate_for_missing_accepted :
  length Bench.dup_gold = length Bench.dup_pred
  /\ ~ Bench.dup_gold ≡ₚ Bench.dup_pred
  /\ forall float_repr,
       compare_results float_repr (PList Bench.dup_gold) (PList Bench.dup_pred)
       = true.
Proof.
  split; [reflexivity|]. split; [exact bench_dup_not_permutation|].
  intros float_repr. vm_compute. reflexivity.
Qed.

Lemma canonical_set_elem float_repr docs s :
  s ∈ canonical_set float_repr docs <-> s ∈ map (Json.dumps float_repr) docs.
Proof. unfold canonical_set. apply elem_of_list_to_set. Qed.

Lemma canonical_set_member float_repr docs d :
  d ∈ docs -> Json.dumps float_repr d ∈ canonical_set float_repr docs.
Proof.
  intros H. apply canonical_set_elem.
  apply list_elem_of_In, in_map, list_elem_of_In, H.
Qed.

(** C2, amended: two lists of equal length that are not equal item by item
    are judged different as soon as one of them holds a document whose
    canonical encoding no document of the other list has. How often an
    encoding occurs plays no part. *)
Theorem one_sided_document_rejected float_repr g p d :
  length g = length p ->
  py_eq (PList g) (PList p) = false ->
  (d ∈ g /\ Json.dumps float_repr d ∉ map (Json.dumps float_repr) p)
  \/ (d ∈ p /\ Json.dumps float_repr d ∉ map (Json.dumps float_repr) g) ->
  compare_results float_repr (PList g) (PList p) = false.
Proof.
  intros Hlen Hne Hd.
  rewrite compare_results_lists, Hlen, Nat.eqb_refl, Hne. cbn [negb].
  apply bool_decide_eq_false. intros Heq.
  destruct Hd as [[Hin Hout] | [Hin Hout]];
    apply Hout, canonical_set_elem;
    [rewrite <- Heq | rewrite Heq]; now apply canonical_set_member.
Qed.

Lemma one_sided_document_rejected_witness :
  Bench.compare (PList [Bench.doc 1; Bench.doc 2])
    (PList [Bench.doc 1; Bench.doc 3]) = false.
Proof.
  apply (one_sided_document_rejected Bench.float_repr _ _ (Bench.doc 2)).
  - reflexivity.
  - vm_compute. reflexivity.
  - left. split.
    + apply list_elem_of_In. right. left. reflexivity.
    + intros H. apply list_elem_of_In in H. vm_compute in H.
      destruct H as [H | [H | []]]; discriminate H.
Defined.

(** ** Key order *)

Lemma pyval_nested_ind (P : pyval -> Prop) :
  P PNone ->
  (forall b, P (PBool b)) ->
  (forall n, P (PInt n)) ->
  (forall f, P (PFloat f)) ->
  (forall s, P (PStr s)) ->
  (forall l, Forall P l -> P (PList l)) ->
  (forall items, Forall (fun kv => P (snd kv)) items -> P (PDict items)) ->
  forall v, P v.
Proof.
  intros HN HB HI HF HS HL HD. fix IH 1.
  intros [ | b | n | f | s | l | items].
  - exact HN.
  - apply HB.
  - apply HI.
  - apply HF.
  - apply HS.
  - apply HL. induction l as [|x l IHl]; constructor; [apply IH | exact IHl].
  - apply HD. induction items as [|[k x] items IHi]; constructor;
      [apply IH | exact IHi].
Qed.

Lemma wf_pyval_list l : wf_pyval (PList l) <-> Forall wf_pyval l.
Proof.
  induction l as [|x l IH].
  - split; [constructor | intros _; exact I].
  - change (wf_pyval (PList (x :: l))) with (wf_pyval x /\ wf_pyval (PList l)).
    rewrite Forall_cons, IH. reflexivity.
Qed.

Lemma wf_pyval_dict items :
  wf_pyval (PDict items)
  <-> NoDup (map fst items) /\ Forall (fun kv => wf_pyval (snd kv)) items.
Proof.
  cbn [wf_pyval]. apply and_iff_compat_l.
  induction items as [|[k x] items IH].
  - split; [constructor | intros _; exact I].
  - rewrite Forall_cons, <- IH. reflexivity.
Qed.

Section SortedItems.

Context {A : Type}.
Implicit Types (x y : string * A) (l : list (string * A)).

#[local] Instance key_le_trans : Transitive (@key_le A).
Proof. intros x y z. unfold key_le. apply transitivity. Qed.

Lemma key_le_leb x y : key_le x y <-> String.leb (fst x) (fst y) = true.
Proof. unfold key_le, String.le. apply Is_true_true. Qed.

Lemma key_le_total x y : key_le x y \/ key_le y x.
Proof. rewrite !key_le_leb. apply String.leb_total. Qed.

Lemma insert_by_key_perm x l : insert_by_key x l ≡ₚ x :: l.
Proof.
  induction l as [|y l IH]; simpl; [reflexivity|].
  destruct (String.leb (fst x) (fst y)); [reflexivity|].
  rewrite IH. apply perm_swap.
Qed.

Lemma sorted_items_perm l : sorted_items l ≡ₚ l.
Proof.
  induction l as [|x l IH]; simpl; [reflexivity|].
  rewrite insert_by_key_perm. now rewrite IH.
Qed.

Lemma insert_by_key_hd x y l :
  key_le y x -> HdRel key_le y l -> HdRel key_le y (insert_by_key x l).
Proof.
  intros Hyx Hl. destruct l as [|z l]; simpl; [now constructor|].
  destruct (String.leb (fst x) (fst z)); constructor; [exact Hyx|].
  now inversion Hl.
Qed.

Lemma insert_by_key_sorted x l :
  Sorted key_le l -> Sorted key_le (insert_by_key x l).
Proof.
  induction 1 as [|y l Hs IH Hhd]; simpl.
  - repeat constructor.
  - destruct (String.leb (fst x) (fst y)) eqn:E.
    + constructor; [now constructor|]. constructor. now apply key_le_leb.
    + constructor; [exact IH|]. apply insert_by_key_hd; [|exact Hhd].
      destruct (key_le_total x y) as [H | H]; [|exact H].
      apply key_le_leb in H. congruence.
Qed.

Lemma sorted_items_sorted l : Sorted key_le (sorted_items l).
Proof.
  induction l as [|x l IH]; simpl; [constructor|].
  now apply insert_by_key_sorted.
Qed.

Lemma same_key_same_item l x y :
  NoDup (map fst l) -> x ∈ l -> y ∈ l -> fst x = fst y -> x = y.
Proof.
  induction l as [|z l IH]; intros Hnd Hx Hy Hk.
  - now apply elem_of_nil in Hx.
  - apply NoDup_cons in Hnd as [Hz Hnd].
    apply elem_of_cons in Hx as [-> | Hx]; apply elem_of_cons in Hy as [-> | Hy].
    + reflexivity.
    + exfalso. apply Hz. rewrite Hk. apply list_elem_of_fmap. now exists y.
    + exfalso. apply Hz. rewrite <- Hk. apply list_elem_of_fmap. now exists x.
    + now apply IH.
Qed.

(** With distinct keys, the sorted items do not depend on the order in
    which the dict holds them. *)
Lemma sorted_items_unique l1 l2 :
  NoDup (map fst l1) -> l1 ≡ₚ l2 -> sorted_items l1 = sorted_items l2.
Proof.
  intros Hnd Hp.
  apply (Sorted_unique_strong key_le).
  - intros x y Hx Hy Hxy Hyx.
    apply (same_key_same_item l1); [exact Hnd| | |].
    + now rewrite <- (sorted_items_perm l1).
    + now rewrite Hp, <- (sorted_items_perm l2).
    + apply (anti_symm String.le); assumption.
  - apply sorted_items_sorted.
  - apply sorted_items_sorted.
  - now rewrite !sorted_items_perm.
Qed.

End SortedItems.

Section CanonicalEncoding.

Variable float_repr : spec_float -> string.

#[local] Abbreviation dumps := (Json.dumps float_repr).
#[local] Abbreviation encode_item := (Json.encode_item float_repr).

Lemma dumps_list l :
  dumps (PList l) = "[" ++ String.concat ", " (map dumps l) ++ "]".
Proof.
  reflexivity.
Qed.

Lemma dumps_dict items :
  dumps (PDict items)
  = "{" ++ String.concat ", "
             (map Json.item_text (sorted_items (map encode_item items)))
      ++ "}".
Proof.
  cbn [Json.dumps]. do 5 f_equal.
  induction items as [|[k x] items IH]; [reflexivity | now rewrite IH].
Qed.

Lemma encode_item_keys items : map fst (map encode_item items) = map fst items.
Proof. induction items as [|[k x] items IH]; simpl; congruence. Qed.

(** The encoding of a value is the same for every order of the items of
    its dicts. *)
Lemma dumps_key_reorder a :
  wf_pyval a -> forall b, key_reorder a b -> dumps a = dumps b.
Proof.
  induction a as [ | t | n | f | s | l IH | items IH] using pyval_nested_ind;
    intros Hwf b Hkr; inversion Hkr as [ | a0 b0 Hall | a0 b' b0 Hall Hperm];
    subst; try reflexivity.
  - rewrite !dumps_list. do 3 f_equal.
    apply wf_pyval_list in Hwf.
    clear Hkr. induction Hall as [|x y l l' Hxy Hall IHall]; [reflexivity|].
    apply Forall_cons in IH as [IHx IH]. apply Forall_cons in Hwf as [Hx Hwf].
    simpl. f_equal; [now apply IHx | now apply IHall].
  - rewrite !dumps_dict. do 4 f_equal.
    apply wf_pyval_dict in Hwf as [Hnd Hwf].
    assert (map encode_item items = map encode_item b') as E.
    { clear Hkr Hperm Hnd.
      induction Hall as [|x y l l' [Hk Hxy] Hall IHall]; [reflexivity|].
      apply Forall_cons in IH as [IHx IH].
      apply Forall_cons in Hwf as [Hx Hwf].
      simpl. f_equal; [|now apply IHall].
      unfold encode_item. rewrite Hk. f_equal. now apply IHx. }
    apply sorted_items_unique.
    + now rewrite encode_item_keys.
    + rewrite E. now apply Permutation_map.
Qed.

End CanonicalEncoding.

(** C8: two dicts that differ at most in the order of their items, at any
    depth, have the same canonical encoding, and the two one-document lists
    made of them are judged equal. *)
Theorem key_order_irrelevant float_repr a b :
  wf_pyval (PDict a) ->
  key_reorder (PDict a) (PDict b) ->
  Json.dumps float_repr (PDict a) = Json.dumps float_repr (PDict b)
  /\ compare_results float_repr (PList [PDict a]) (PList [PDict b]) = true.
Proof.
  intros Hwf Hkr.
  pose proof (dumps_key_reorder float_repr _ Hwf _ Hkr) as E.
  split; [exact E|].
  apply compare_results_lists_iff; [reflexivity|].
  right. unfold canonical_set. cbn [map]. now rewrite E.
Qed.

Lemma bench_nested_wf : wf_pyval (PDict Bench.nested_ab).
Proof.
  apply wf_pyval_dict. split.
  - apply (bool_decide_unpack _). vm_compute. exact I.
  - apply Forall_cons. split; [exact I|].
    apply Forall_cons. split; [|constructor].
    apply wf_pyval_dict. split.
    + apply (bool_decide_unpack _). vm_compute. exact I.
    + repeat constructor.
Qed.

Lemma bench_nested_reorder :
  key_reorder (PDict Bench.nested_ab) (PDict Bench.nested_ba).
Proof.
  apply (kr_dict _
           [("a", PInt 1); ("b", PDict [("y", PList [PNone]); ("x", PStr "u")])]).
  - constructor; [split; [reflexivity | apply kr_same]|].
    constructor; [|constructor]. split; [reflexivity|].
    apply (kr_dict _ [("x", PStr "u"); ("y", PList [PNone])]).
    + repeat constructor.
    + apply perm_swap.
  - apply perm_swap.
Qed.

Lemma key_order_irrelevant_witness :
  wf_pyval (PDict Bench.nested_ab)
  /\ key_reorder (PDict Bench.nested_ab) (PDict Bench.nested_ba)
  /\ Json.dumps Bench.float_repr (PDict Bench.nested_ab)
  = Json.dumps Bench.float_repr (PDict Bench.nested_ba)
  /\ Bench.compare (PList [PDict Bench.nested_ab]) (PList [PDict Bench.nested_ba])
     = true.
Proof.
  split; [exact bench_nested_wf|]. split; [exact bench_nested_reorder|].
  exact (key_order_irrelevant Bench.float_repr _ _
           bench_nested_wf bench_nested_reorder).
Defined.

(** ** The batch loop *)

Section BatchFacts.

Variable float_repr : spec_float -> string.
Variable run_mongosh : pyval -> string -> proc_outcome.
Variable json_loads : string -> loads_outcome.

#[local] Abbreviation process_entry' :=
  (process_entry float_repr run_mongosh json_loads).
#[local] Abbreviation run_loop' :=
  (run_loop float_repr run_mongosh json_loads).
#[local] Abbreviation entry_results' :=
  (entry_results run_mongosh json_loads).
#[local] Abbreviation batch_results' :=
  (batch_results run_mongosh json_loads).
#[local] Abbreviation count' := (count_verdict float_repr).

Lemma count_mismatches_app log l :
  count_mismatches (log ++ [l])
  = count_mismatches log + (if is_mismatch l then 1 else 0).
Proof.
  unfold count_mismatches. rewrite filter_app, length_app.
  destruct l; simpl; lia.
Qed.

Ltac step_bind :=
  match goal with
  | H : context [mbind _ ?r] |- _ =>
      lazymatch r with
      | Ok _ => fail
      | Raise _ => fail
      | _ => let E := fresh "E" in
             destruct r eqn:E; cbn [mbind result_bind] in *;
             try discriminate H
      end
  end.

Lemma process_entry_counted st entry r :
  entry_results' entry = Ok r ->
  exists st', process_entry' st entry = Ok st' /\ counted (judge float_repr r) st st'.
Proof.
  unfold entry_results, process_entry, judge. intros H.
  repeat step_bind. injection H as <-. cbn [fst snd].
  destruct (is_error_text _); [|destruct (compare_results _ _ _)];
    (eexists; split; [reflexivity|]); unfold counted;
    cbn [total_count execution_errors correct_count log_file];
    rewrite ?count_mismatches_app; cbn [is_mismatch]; repeat split; lia.
Qed.

Lemma process_entry_has_results st entry st' :
  process_entry' st entry = Ok st' -> exists r, entry_results' entry = Ok r.
Proof.
  unfold entry_results, process_entry. intros H.
  repeat step_bind. eauto.
Qed.

Lemma count_verdict_cons v r rs :
  count' v (r :: rs)
  = (if decide (judge float_repr r = v) then 1 else 0) + count' v rs.
Proof.
  unfold count_verdict. rewrite filter_cons.
  destruct (decide (judge float_repr r = v)); cbn [length]; lia.
Qed.

Lemma run_loop_counts data : forall st st',
  run_loop' st data = Ok st' ->
  exists rs,
    batch_results' data = Ok rs
    /\ length rs = length data
    /\ total_count st' = total_count st + Z.of_nat (length data)
    /\ execution_errors st' = execution_errors st + count' ExecutionError rs
    /\ correct_count st' = correct_count st + count' Correct rs
    /\ count_mismatches (log_file st')
       = count_mismatches (log_file st) + count' Incorrect rs.
Proof.
  induction data as [|entry data IH]; intros st st' H.
  - injection H as <-. exists []. unfold count_verdict. cbn.
    repeat split; lia.
  - cbn [run_loop] in H.
    destruct (process_entry' st entry) as [st1|e] eqn:E1;
      cbn [mbind result_bind] in H; [|discriminate H].
    destruct (process_entry_has_results _ _ _ E1) as (r & Hr).
    destruct (process_entry_counted st entry r Hr) as (st1' & E1' & Hc).
    rewrite E1 in E1'. injection E1' as <-.
    destruct (IH _ _ H) as (rs & Hrs & Hlen & Ht & He & Hk & Hm).
    exists (r :: rs). cbn [batch_results]. rewrite Hr, Hrs.
    cbn [mbind result_bind length]. rewrite !count_verdict_cons.
    destruct Hc as (Ht1 & Hc).
    split; [reflexivity|]. split; [now rewrite Hlen|].
    destruct (judge float_repr r); destruct Hc as (He1 & Hk1 & Hm1);
      repeat split; repeat case_decide; try congruence; lia.
Qed.

Lemma count_verdict_partition rs :
  count' ExecutionError rs + count' Correct rs + count' Incorrect rs
  = Z.of_nat (length rs).
Proof.
  induction rs as [|r rs IH]; [reflexivity|].
  rewrite !count_verdict_cons. cbn [length].
  destruct (judge float_repr r); repeat case_decide; try congruence; lia.
Qed.

End BatchFacts.

(** ** Rounding to binary64

    Bounds on the rounded quotient and the rounded product of the report:
    a rounded value does not pass a bound that is itself a float. *)

Close Scope string_scope.

Lemma digits2_pos_bounds p :
  2 ^ (Zpos (digits2_pos p) - 1) <= Zpos p < 2 ^ Zpos (digits2_pos p).
Proof.
  induction p as [p IH | p IH | ]; cbn [digits2_pos].
  - rewrite Pos2Z.inj_succ.
    replace (Z.succ (Zpos (digits2_pos p)) - 1) with (Z.succ (Zpos (digits2_pos p) - 1)) by lia.
    rewrite !Z.pow_succ_r by lia. lia.
  - rewrite Pos2Z.inj_succ.
    replace (Z.succ (Zpos (digits2_pos p)) - 1) with (Z.succ (Zpos (digits2_pos p) - 1)) by lia.
    rewrite !Z.pow_succ_r by lia. lia.
  - cbn. lia.
Qed.

Lemma Zdigits2_nonneg m : 0 <= Zdigits2 m.
Proof. destruct m; cbn; lia. Qed.

Lemma Zdigits2_upper m d : 0 <= d -> 0 <= m < 2 ^ d -> Zdigits2 m <= d.
Proof.
  intros Hd [H0 H1]. destruct m as [|p|p]; cbn [Zdigits2]; try lia.
  pose proof (digits2_pos_bounds p) as [Hl _].
  destruct (Z_le_gt_dec (Zpos (digits2_pos p)) d) as [|Hgt]; [assumption|].
  exfalso.
  assert (2 ^ d <= 2 ^ (Zpos (digits2_pos p) - 1)) by (apply Z.pow_le_mono_r; lia).
  lia.
Qed.

Lemma shr_1_m mrs :
  0 <= shr_m mrs -> shr_m (shr_1 mrs) = shr_m mrs / 2.
Proof.
  destruct mrs as [m r s]. cbn [shr_m]. intros H.
  destruct m as [|[p|p|]|p]; cbn [shr_1 shr_m]; try lia; try reflexivity.
  - rewrite Pos2Z.inj_xI. apply Z.div_unique with 1; lia.
  - rewrite Pos2Z.inj_xO. apply Z.div_unique with 0; lia.
Qed.

Lemma shr_1_flags mrs :
  0 <= shr_m mrs -> shr_r mrs = false -> shr_s mrs = false ->
  shr_m mrs mod 2 = 0 ->
  shr_r (shr_1 mrs) = false /\ shr_s (shr_1 mrs) = false.
Proof.
  destruct mrs as [m r s]. cbn [shr_m shr_r shr_s]. intros H -> -> Hm.
  destruct m as [|[p|p|]|p]; cbn [shr_1 shr_r shr_s]; auto; try lia.
  - rewrite Pos2Z.inj_xI in Hm. exfalso.
    rewrite Z.add_comm, Z.mul_comm, Z.mod_add in Hm by lia. discriminate Hm.
  - discriminate Hm.
Qed.

Lemma pow2_xO p : 2 ^ Zpos p~0 = 2 ^ Zpos p * 2 ^ Zpos p.
Proof. rewrite Pos2Z.inj_xO, <- Z.pow_add_r by lia. f_equal. lia. Qed.

Lemma pow2_xI p : 2 ^ Zpos p~1 = 2 * (2 ^ Zpos p * 2 ^ Zpos p).
Proof.
  rewrite Pos2Z.inj_xI, Z.pow_add_r by lia.
  change (2 * Z.pos p) with (Z.pos p~0). rewrite pow2_xO.
  change (2 ^ 1) with 2. lia.
Qed.

Lemma pow2_pos n : 0 < 2 ^ n \/ n < 0.
Proof. destruct (Z_lt_le_dec n 0); [right; lia | left; apply Z.pow_pos_nonneg; lia]. Qed.

Lemma iter_shr_m p : forall mrs,
  0 <= shr_m mrs ->
  shr_m (SpecFloat.iter_pos shr_1 p mrs) = shr_m mrs / 2 ^ Zpos p.
Proof.
  induction p as [p IH | p IH | ]; intros mrs H; cbn [SpecFloat.iter_pos].
  - assert (0 < 2 ^ Zpos p) as Hp by (apply Z.pow_pos_nonneg; lia).
    assert (0 <= shr_m (shr_1 mrs)) as H1
        by (rewrite shr_1_m by assumption; apply Z.div_pos; lia).
    assert (0 <= shr_m (SpecFloat.iter_pos shr_1 p (shr_1 mrs))) as H2
        by (rewrite IH by assumption; apply Z.div_pos; lia).
    rewrite IH, IH, shr_1_m by assumption.
    rewrite !Z.div_div by lia. rewrite pow2_xI. f_equal; lia.
  - assert (0 < 2 ^ Zpos p) as Hp by (apply Z.pow_pos_nonneg; lia).
    assert (0 <= shr_m (SpecFloat.iter_pos shr_1 p mrs)) as H2
        by (rewrite IH by assumption; apply Z.div_pos; lia).
    rewrite IH, IH by assumption.
    rewrite !Z.div_div by lia. rewrite pow2_xO. reflexivity.
  - rewrite shr_1_m by assumption. reflexivity.
Qed.

Lemma iter_shr_nonneg p mrs :
  0 <= shr_m mrs -> 0 <= shr_m (SpecFloat.iter_pos shr_1 p mrs).
Proof. intros H. rewrite iter_shr_m by assumption. apply Z.div_pos; lia. Qed.

Lemma mod_half a b :
  0 < a -> 0 < b -> forall m, m mod (a * b) = 0 -> m mod a = 0 /\ (m / a) mod b = 0.
Proof.
  intros Ha Hb m Hm.
  apply Z.mod_divide in Hm; [|lia]. destruct Hm as [k ->].
  replace (k * (a * b)) with (k * b * a) by lia.
  rewrite Z.mod_mul, Z.div_mul by lia. rewrite Z.mod_mul by lia. auto.
Qed.

Lemma iter_shr_exact p : forall mrs,
  0 <= shr_m mrs -> shr_r mrs = false -> shr_s mrs = false ->
  shr_m mrs mod 2 ^ Zpos p = 0 ->
  shr_r (SpecFloat.iter_pos shr_1 p mrs) = false /\ shr_s (SpecFloat.iter_pos shr_1 p mrs) = false.
Proof.
  induction p as [p IH | p IH | ]; intros mrs H Hr Hs Hm; cbn [SpecFloat.iter_pos].
  - assert (0 < 2 ^ Zpos p) as Hp by (apply Z.pow_pos_nonneg; lia).
    rewrite pow2_xI in Hm.
    destruct (mod_half 2 (2 ^ Zpos p * 2 ^ Zpos p) ltac:(lia) ltac:(lia) _ Hm)
      as [Hm1 Hm2].
    destruct (mod_half _ _ Hp Hp _ Hm2) as [Hm3 Hm4].
    destruct (shr_1_flags mrs H Hr Hs Hm1) as [Hr1 Hs1].
    assert (0 <= shr_m (shr_1 mrs)) as H1
        by (rewrite shr_1_m by assumption; apply Z.div_pos; lia).
    rewrite <- shr_1_m in Hm3, Hm4 by assumption.
    destruct (IH _ H1 Hr1 Hs1 Hm3) as [Hr2 Hs2].
    apply IH; auto using iter_shr_nonneg.
    rewrite iter_shr_m by assumption. exact Hm4.
  - assert (0 < 2 ^ Zpos p) as Hp by (apply Z.pow_pos_nonneg; lia).
    rewrite pow2_xO in Hm.
    destruct (mod_half _ _ Hp Hp _ Hm) as [Hm3 Hm4].
    destruct (IH _ H Hr Hs Hm3) as [Hr2 Hs2].
    apply IH; auto using iter_shr_nonneg.
    rewrite iter_shr_m by assumption. exact Hm4.
  - apply shr_1_flags; assumption.
Qed.

Lemma loc_of_shr_record_of_loc m l : loc_of_shr_record (shr_record_of_loc m l) = l.
Proof. destruct l as [|[ | | ]]; reflexivity. Qed.

Lemma shr_m_of_loc m l : shr_m (shr_record_of_loc m l) = m.
Proof. destruct l as [|[ | | ]]; reflexivity. Qed.

Lemma shr_fexp_spec m e l :
  0 <= m ->
  exists mrs,
    shr_fexp 53 1024 m e l = (mrs, e + shift_amount m e)
    /\ shr_m mrs = m / 2 ^ shift_amount m e
    /\ (l = loc_Exact -> m mod 2 ^ shift_amount m e = 0 ->
        loc_of_shr_record mrs = loc_Exact).
Proof.
  intros Hm. unfold shr_fexp, shift_amount, shr.
  destruct (fexp 53 1024 (Zdigits2 m + e) - e) as [|p|p] eqn:En.
  - exists (shr_record_of_loc m l). rewrite Z.add_0_r. cbn [Z.max Z.compare].
    change (2 ^ 0) with 1. rewrite Z.div_1_r, shr_m_of_loc, loc_of_shr_record_of_loc.
    auto.
  - exists (SpecFloat.iter_pos shr_1 p (shr_record_of_loc m l)).
    replace (Z.max (Zpos p) 0) with (Zpos p) by lia.
    split; [reflexivity|]. split.
    + rewrite iter_shr_m; rewrite shr_m_of_loc; auto.
    + intros -> Hmod.
      destruct (iter_shr_exact p (shr_record_of_loc m loc_Exact)) as [Hr Hs];
        try reflexivity; cbn [shr_record_of_loc shr_m]; auto.
      destruct (SpecFloat.iter_pos shr_1 p _) as [m' r' s']. cbn in Hr, Hs. subst.
      reflexivity.
  - exists (shr_record_of_loc m l). replace (Z.max (Zneg p) 0) with 0 by lia.
    rewrite Z.add_0_r. change (2 ^ 0) with 1.
    rewrite Z.div_1_r, shr_m_of_loc, loc_of_shr_record_of_loc. auto.
Qed.

Lemma round_nearest_even_bounds m l :
  m <= round_nearest_even m l <= m + 1
  /\ (l = loc_Exact -> round_nearest_even m l = m).
Proof.
  destruct l as [|[ | | ]]; cbn [round_nearest_even]; try (split; [lia|auto; discriminate]).
  destruct (Z.even m); split; try lia; discriminate.
Qed.

Lemma binary_round_aux_spec s mx ex lx :
  0 <= mx ->
  exists m1r,
    mx / 2 ^ shift_amount mx ex <= m1r <= mx / 2 ^ shift_amount mx ex + 1
    /\ (lx = loc_Exact -> mx mod 2 ^ shift_amount mx ex = 0 ->
        m1r = mx / 2 ^ shift_amount mx ex)
    /\ binary_round_aux 53 1024 s mx ex lx
       = let e1 := ex + shift_amount mx ex in
         let e2 := e1 + shift_amount m1r e1 in
         match m1r / 2 ^ shift_amount m1r e1 with
         | Z0 => S754_zero s
         | Zpos m => if e2 <=? 1024 - 53 then S754_finite s m e2
                     else S754_infinity s
         | Zneg _ => S754_nan
         end.
Proof.
  intros Hm. unfold binary_round_aux.
  destruct (shr_fexp_spec mx ex lx Hm) as (mrs1 & -> & Hm1 & Hx1).
  set (m1r := round_nearest_even (shr_m mrs1) (loc_of_shr_record mrs1)).
  destruct (round_nearest_even_bounds (shr_m mrs1) (loc_of_shr_record mrs1))
    as [Hb Hex]. fold m1r in Hb, Hex.
  assert (0 <= shr_m mrs1) as H1 by (rewrite Hm1; apply Z.div_pos; [lia|]; apply Z.pow_pos_nonneg; unfold shift_amount; lia).
  assert (0 <= m1r) as H1r by lia.
  destruct (shr_fexp_spec m1r (ex + shift_amount mx ex) loc_Exact H1r)
    as (mrs2 & -> & Hm2 & _).
  exists m1r. rewrite <- Hm1. split; [exact Hb|]. split.
  - intros Hl Hmod. apply Hex. now apply Hx1.
  - cbn zeta. rewrite Hm2. reflexivity.
Qed.

Lemma Zdigits2_mono a b : 0 <= a <= b -> Zdigits2 a <= Zdigits2 b.
Proof.
  intros [Ha Hab]. destruct b as [|q|q]; try lia.
  - assert (a = 0) as -> by lia. cbn. lia.
  - apply Zdigits2_upper; [cbn; lia|].
    pose proof (digits2_pos_bounds q). cbn [Zdigits2]. lia.
Qed.

Lemma fexp_mono a b : a <= b -> fexp 53 1024 a <= fexp 53 1024 b.
Proof. unfold fexp, emin. lia. Qed.

(** Rounding a value that is at most [Bi * 2 ^ e1], and exactly so only
    when it is exact, gives zero or a finite float that is at most this
    bound. *)
Lemma binary_round_aux_le s mx ex lx Bi :
  0 <= mx ->
  let N := shift_amount mx ex in
  let e1 := ex + N in
  mx < Bi * 2 ^ N \/ (mx = Bi * 2 ^ N /\ lx = loc_Exact) ->
  Z.max e1 (fexp 53 1024 (Zdigits2 Bi + e1)) <= 1024 - 53 ->
  binary_round_aux 53 1024 s mx ex lx = S754_zero s
  \/ exists m e,
       binary_round_aux 53 1024 s mx ex lx = S754_finite s m e
       /\ e1 <= e <= Z.max e1 (fexp 53 1024 (Zdigits2 Bi + e1))
       /\ Zpos m * 2 ^ (e - e1) <= Bi.
Proof.
  intros Hm N e1 Hle He.
  destruct (binary_round_aux_spec s mx ex lx Hm) as (m1r & Hb & Hex & ->).
  cbn zeta. fold N in Hb, Hex. fold N. fold e1.
  assert (0 <= N) as HN by (unfold N, shift_amount; lia).
  assert (0 < 2 ^ N) as HpN by (apply Z.pow_pos_nonneg; lia).
  assert (0 <= mx / 2 ^ N) as Hq by (apply Z.div_pos; lia).
  assert (m1r <= Bi) as HBi.
  { destruct Hle as [Hlt | [Heq Hl]].
    - assert (mx / 2 ^ N < Bi) by (apply Z.div_lt_upper_bound; lia). lia.
    - rewrite Hex; auto.
      + rewrite Heq, Z.div_mul by lia. lia.
      + rewrite Heq. apply Z.mod_mul. lia. }
  set (N2 := shift_amount m1r e1).
  assert (0 <= N2) as HN2 by (unfold N2, shift_amount; lia).
  assert (0 < 2 ^ N2) as HpN2 by (apply Z.pow_pos_nonneg; lia).
  assert (e1 + N2 <= Z.max e1 (fexp 53 1024 (Zdigits2 Bi + e1))) as He2.
  { unfold N2, shift_amount.
    assert (Zdigits2 m1r <= Zdigits2 Bi) by (apply Zdigits2_mono; lia).
    assert (fexp 53 1024 (Zdigits2 m1r + e1) <= fexp 53 1024 (Zdigits2 Bi + e1))
      by (apply fexp_mono; lia).
    lia. }
  destruct (m1r / 2 ^ N2) as [|m|m] eqn:E2.
  - left. reflexivity.
  - right. exists m, (e1 + N2).
    destruct (Z.leb_spec (e1 + N2) (1024 - 53)); [|lia].
    split; [reflexivity|]. split; [lia|].
    replace (e1 + N2 - e1) with N2 by lia. rewrite <- E2.
    pose proof (Z.mul_div_le m1r (2 ^ N2) HpN2). lia.
  - exfalso. assert (0 <= m1r / 2 ^ N2) by (apply Z.div_pos; lia). lia.
Qed.

(** [c / t] for [0 < c <= t]: zero or a finite float that is at most 1. *)
Lemma SFdiv_le_one c t :
  (c <= t)%positive ->
  SFdiv 53 1024 (S754_finite false c 0) (S754_finite false t 0) = S754_zero false
  \/ exists m e,
       SFdiv 53 1024 (S754_finite false c 0) (S754_finite false t 0)
       = S754_finite false m e
       /\ e <= 0 /\ Zpos m <= 2 ^ (- e).
Proof.
  intros Hct. cbn [SFdiv xorb]. unfold SFdiv_core_binary.
  set (e' := Z.min (fexp 53 1024 (Zdigits2 (Zpos c) + 0 - (Zdigits2 (Zpos t) + 0))) (0 - 0)).
  set (s := 0 - 0 - e').
  set (m' := match s with Zpos _ => Z.shiftl (Zpos c) s | Z0 => Zpos c | Zneg _ => 0 end).
  assert (e' <= 0) as He0 by apply Z.le_min_r.
  assert (s = - e') as Hse by reflexivity.
  clearbody e'.
  assert (m' = match s with Zpos _ => Z.shiftl (Zpos c) s | Z0 => Zpos c | Zneg _ => 0 end)
    as Hm0 by reflexivity.
  clearbody m' s.
  assert (0 <= s) as Hs by lia.
  assert (e' = - s) as He' by lia.
  assert (m' = Zpos c * 2 ^ s) as Hm'.
  { rewrite Hm0. clear Hm0 Hse He'. destruct s as [|p|p]; try lia.
    apply Z.shiftl_mul_pow2. lia. }
  clear Hm0.
  assert (0 < 2 ^ s) as Hp by (apply Z.pow_pos_nonneg; lia).
  pose proof (Z_div_mod m' (Zpos t) ltac:(lia)) as Hdm.
  destruct (Z.div_eucl m' (Zpos t)) as [q r] eqn:Eqr.
  destruct Hdm as [Hdm Hr].
  assert (0 <= q) as Hq by nia.
  assert (q <= 2 ^ s) as Hq1 by nia.
  assert (q = 2 ^ s -> r = 0) as Hexact by nia.
  set (N := shift_amount q e').
  assert (0 <= N) as HN by (unfold N, shift_amount; lia).
  assert (e' + N <= 0) as He1.
  { unfold N, shift_amount.
    assert (Zdigits2 q <= s + 1)
      by (apply Zdigits2_upper; [lia|]; rewrite Z.pow_add_r by lia; lia).
    unfold fexp, emin. lia. }
  assert (2 ^ s = 2 ^ (- (e' + N)) * 2 ^ N) as Hsplit
      by (rewrite <- Z.pow_add_r by lia; f_equal; lia).
  destruct (binary_round_aux_le false q e' (new_location (Zpos t) r)
              (2 ^ (- (e' + N))) Hq) as [Hz | (m & e & Hf & He & Hv)].
  - fold N. rewrite <- Hsplit.
    destruct (Z.eq_dec q (2 ^ s)) as [Heq | Hne]; [right | left; lia].
    split; [exact Heq|]. rewrite (Hexact Heq).
    unfold new_location, new_location_even, new_location_odd.
    destruct (Z.even (Zpos t)); reflexivity.
  - fold N.
    assert (Zdigits2 (2 ^ (- (e' + N))) <= - (e' + N) + 1).
    { apply Zdigits2_upper; [lia|]. split; [apply Z.pow_nonneg; lia|].
      apply Z.pow_lt_mono_r; lia. }
    unfold fexp, emin. lia.
  - left. exact Hz.
  - right. exists m, e. fold N in He, Hv. split; [exact Hf|].
    assert (Zdigits2 (2 ^ (- (e' + N))) <= - (e' + N) + 1) as Hd.
    { apply Zdigits2_upper; [lia|]. split; [apply Z.pow_nonneg; lia|].
      apply Z.pow_lt_mono_r; lia. }
    assert (e <= 0) as Hexp by (unfold fexp, emin in He; lia).
    split; [exact Hexp|].
    assert (2 ^ (- (e' + N)) = 2 ^ (- e) * 2 ^ (e - (e' + N)))
      by (rewrite <- Z.pow_add_r by lia; f_equal; lia).
    assert (0 < 2 ^ (e - (e' + N))) by (apply Z.pow_pos_nonneg; lia).
    nia.
Qed.

Lemma float_of_int_100 :
  float_of_int 100 = S754_finite false 7036874417766400 (-46).
Proof. reflexivity. Qed.

Lemma SFmul_hundred m e :
  e <= 0 -> Zpos m <= 2 ^ (- e) ->
  SFmul 53 1024 (S754_finite false m e) (float_of_int 100) = S754_zero false
  \/ exists m2 e2,
       SFmul 53 1024 (S754_finite false m e) (float_of_int 100) = S754_finite false m2 e2
       /\ e2 <= -46 /\ Zpos m2 <= 100 * 2 ^ (- e2).
Proof.
  intros He Hm. rewrite float_of_int_100. cbn [SFmul xorb].
  change (IntDef.Z.add e (-46)) with (e + -46).
  set (M := 7036874417766400%positive).
  set (mx := Zpos (m * M)). set (ex := e + -46).
  assert (mx = Zpos m * Zpos M) as Hmx by reflexivity.
  assert (Zpos M = 100 * 2 ^ 46) as HM by reflexivity.
  assert (Zpos M < 2 ^ 53) as HM53 by reflexivity.
  assert (ex = e - 46) as Hex by reflexivity.
  clearbody mx M ex.
  assert (0 < 2 ^ (- e)) as Hpe by (apply Z.pow_pos_nonneg; lia).
  assert (0 <= mx) as Hmx0 by (rewrite Hmx; apply Z.mul_nonneg_nonneg; apply Pos2Z.is_nonneg).
  set (N := shift_amount mx ex).
  assert (0 <= N) as HN by (unfold N, shift_amount; lia).
  assert (ex + N <= -46) as He1.
  { unfold N, shift_amount.
    assert (Zdigits2 mx <= 53 - e).
    { apply Zdigits2_upper; [lia|]. split; [lia|].
      replace (53 - e) with (53 + - e) by lia. rewrite Z.pow_add_r by lia. nia. }
    unfold fexp, emin. lia. }
  set (Bi := Zpos M * 2 ^ (-46 - (ex + N))).
  assert (0 < 2 ^ (-46 - (ex + N))) as Hp1 by (apply Z.pow_pos_nonneg; lia).
  assert (0 < 2 ^ N) as HpN by (apply Z.pow_pos_nonneg; lia).
  assert (Bi * 2 ^ N = Zpos M * 2 ^ (- e)) as HBi.
  { unfold Bi. rewrite <- Z.mul_assoc, <- Z.pow_add_r by lia.
    do 2 f_equal. lia. }
  assert (Zdigits2 Bi <= 53 + (-46 - (ex + N))) as HdB.
  { apply Zdigits2_upper; [lia|]. unfold Bi. split; [lia|].
    rewrite Z.pow_add_r by lia. nia. }
  destruct (binary_round_aux_le false mx ex loc_Exact Bi Hmx0)
    as [Hz | (m2 & e2 & Hf & He2 & Hv)].
  - fold N. rewrite HBi.
    destruct (Z.eq_dec (Zpos m) (2 ^ (- e))) as [Heq | Hne].
    + right. split; [|reflexivity]. rewrite Hmx, Heq. lia.
    + left. rewrite Hmx. nia.
  - fold N. unfold fexp, emin. lia.
  - left. exact Hz.
  - right. exists m2, e2. fold N in He2, Hv. split; [exact Hf|].
    assert (e2 <= -46) as He46 by (unfold fexp, emin in He2; lia).
    split; [exact He46|].
    assert (0 < 2 ^ (e2 - (ex + N))) as Hp2 by (apply Z.pow_pos_nonneg; lia).
    assert (Bi = 100 * 2 ^ (- e2) * 2 ^ (e2 - (ex + N))) as HB2.
    { unfold Bi. rewrite HM, <- !Z.mul_assoc, <- !Z.pow_add_r by lia.
      do 2 f_equal. lia. }
    nia.
Qed.

Lemma float_value_range m e B :
  e <= 0 -> Zpos m <= B * 2 ^ (- e) ->
  exists v, float_value (S754_finite false m e) = Some v
            /\ (0 <= v <= inject_Z B)%Q.
Proof.
  intros He Hm. cbn [float_value]. eexists. split; [reflexivity|].
  assert (0 < 2 ^ (- e)) as Hp by (apply Z.pow_pos_nonneg; lia).
  destruct (0 <=? e) eqn:E.
  - apply Z.leb_le in E. assert (e = 0) as -> by lia.
    change (2 ^ (- 0)) with 1 in Hm. change (2 ^ 0) with 1.
    split; unfold Qle; cbn [Qnum Qden inject_Z]; lia.
  - split; unfold Qle; cbn [Qnum Qden inject_Z];
      rewrite ?Z2Pos.id by exact Hp; lia.
Qed.

Lemma true_divide_le_one c t :
  0 <= c <= t -> 0 < t ->
  exists q,
    true_divide c t = Ok q
    /\ (q = S754_zero false
        \/ exists m e, q = S754_finite false m e
                       /\ e <= 0 /\ Zpos m <= 2 ^ (- e)).
Proof.
  intros [Hc Hct] Ht. unfold true_divide.
  destruct (Z.eqb_spec t 0) as [->|_]; [lia|].
  destruct t as [|t|t]; try lia.
  destruct c as [|c|c]; try lia.
  - exists (S754_zero false). split; [reflexivity|]. now left.
  - cbn [int_as_float].
    destruct (SFdiv_le_one c t) as [-> | (m & e & -> & He & Hm)]; [lia| |].
    + exists (S754_zero false). split; [reflexivity|]. now left.
    + exists (S754_finite false m e). split; [reflexivity|].
      right. now exists m, e.
Qed.



Lemma accuracy_no_records c t : t <= 0 -> accuracy c t = Ok (NumInt 0).
Proof.
  intros Ht. unfold accuracy.
  destruct (Z.ltb_spec 0 t) as [H|_]; [lia|reflexivity].
Qed.

(** The accuracy of a positive total: the quotient and the product are
    finite floats, and the value of the product is between 0 and 100. *)
Lemma accuracy_in_range c t :
  0 <= c <= t -> 0 < t ->
  exists q v,
    true_divide c t = Ok q
    /\ accuracy c t = Ok (NumFloat (SFmul 53 1024 q (float_of_int 100)))
    /\ float_value (SFmul 53 1024 q (float_of_int 100)) = Some v
    /\ (0 <= v <= 100)%Q.
Proof.
  intros Hc Ht.
  destruct (true_divide_le_one c t Hc Ht) as (q & Hq & Hshape).
  assert (accuracy c t = Ok (NumFloat (SFmul 53 1024 q (float_of_int 100))))
    as Hacc.
  { unfold accuracy. destruct (Z.ltb_spec 0 t) as [_|H]; [|lia].
    now rewrite Hq. }
  assert (exists v, float_value (S754_zero false) = Some v
                    /\ (0 <= v <= 100)%Q) as Hzero.
  { exists 0%Q. split; [reflexivity|]. split; discriminate. }
  destruct Hshape as [-> | (m & e & -> & He & Hm)].
  - destruct Hzero as (v & Hv & Hr). exists (S754_zero false), v.
    rewrite float_of_int_100. cbn [SFmul xorb]. auto.
  - destruct (SFmul_hundred m e He Hm) as [E | (m2 & e2 & E & He2 & Hm2)].
    + destruct Hzero as (v & Hv & Hr).
      exists (S754_finite false m e), v. rewrite E. rewrite E in Hacc. auto.
    + destruct (float_value_range m2 e2 100) as (v & Hv & Hr); [lia|lia|].
      exists (S754_finite false m e), v. rewrite E. rewrite E in Hacc. auto.
Qed.

(** The report of counters that a run can reach is produced: neither the
    division nor the product raises. *)
Lemma report_produced st :
  0 <= correct_count st <= total_count st ->
  exists acc,
    accuracy (correct_count st) (total_count st) = Ok acc
    /\ report st
       = Ok (mkReport (total_count st) (correct_count st)
               (total_count st - correct_count st) (execution_errors st) acc).
Proof.
  intros Hc. unfold report.
  destruct (Z_lt_le_dec 0 (total_count st)) as [Ht|Ht].
  - destruct (accuracy_in_range _ _ Hc Ht) as (q & v & _ & -> & _).
    eexists. split; reflexivity.
  - rewrite accuracy_no_records by exact Ht. eexists. split; reflexivity.
Qed.

Open Scope string_scope.

(** ** The counters of a completed run *)

Lemma count_verdict_filters float_repr rs :
  count_verdict float_repr ExecutionError rs
  = Z.of_nat (length (filter (fun r => is_error_text (snd r) = true) rs))
  /\ count_verdict float_repr Correct rs
     = Z.of_nat (length (filter
                   (fun r => is_error_text (snd r) = false
                             /\ compare_results float_repr (fst r) (snd r) = true)
                   rs))
  /\ count_verdict float_repr Incorrect rs
     = Z.of_nat (length (filter
                   (fun r => is_error_text (snd r) = false
                             /\ compare_results float_repr (fst r) (snd r) = false)
                   rs)).
Proof.
  unfold count_verdict.
  repeat split; do 2 f_equal; apply list_filter_iff; intros r; unfold judge;
    destruct (is_error_text (snd r));
    destruct (compare_results float_repr (fst r) (snd r));
    intuition congruence.
Qed.

Lemma failure_result_error_text v :
  failure_result v ->
  (is_error_text v = true
   <-> v <> PStr "UNSAFE_OR_EMPTY" /\ v <> PStr "MONGOSH_NOT_FOUND").
Proof.
  destruct 1 as [ | output | | | msg].
  - split; [discriminate | intros [H _]; now destruct H].
  - split; [split; discriminate|].
    intros _. exact (str_in_app "ERROR" "EXECUTION_" (": " ++ output)).
  - split; [split; discriminate | reflexivity].
  - split; [discriminate | intros [_ H]; now destruct H].
  - split; [split; discriminate|].
    intros _. exact (str_in_app "ERROR" "SYSTEM_" (": " ++ msg)).
Qed.

Lemma failure_result_compare float_repr g p :
  failure_result g \/ failure_result p ->
  compare_results float_repr g p = false.
Proof.
  intros [H | H]; apply failure_result_is_str in H.
  - destruct g; try discriminate. apply compare_results_str_l.
  - destruct p; try discriminate. apply compare_results_str_r.
Qed.

(** The counters of a completed run: the correct count is between 0 and
    the total. *)
Lemma run_loop_bounds float_repr run_mongosh json_loads data st :
  run_loop float_repr run_mongosh json_loads initial_state data = Ok st ->
  total_count st = Z.of_nat (length data)
  /\ 0 <= correct_count st <= total_count st
  /\ 0 <= execution_errors st
  /\ correct_count st + execution_errors st <= total_count st.
Proof.
  intros H.
  destruct (run_loop_counts _ _ _ _ _ _ H)
    as (rs & _ & Hlen & Ht & He & Hk & _).
  cbn in Ht, He, Hk.
  pose proof (count_verdict_partition float_repr rs) as Hp.
  unfold count_verdict in *. lia.
Qed.

(** C3, as stated, fails three times. A record whose gold query fails in
    the shell, with a predicted query that succeeds, adds nothing to the
    error tally and is logged and reported as incorrect. A record whose
    predicted query fails in the shell is tallied as an error and is also
    part of the reported incorrect count. A record whose two queries both
    succeed, the predicted one with a text that has ERROR in it, is tallied
    as an error and gets no verdict of the comparator. *)
Lemma gold_failure_counted_incorrect :
  Bench.execute (PStr "shop") (PStr "db.users.oops()")
  = Ok (PStr "EXECUTION_ERROR: ERROR: oops is not a function")
  /\ (exists st r,
        Bench.run [Bench.entry 3 "db.users.oops()" "db.users.find()"] = Ok st
        /\ execution_errors st = 0
        /\ count_mismatches (log_file st) = 1
        /\ report st = Ok r
        /\ report_incorrect r = 1)
  /\ (exists st r,
        Bench.run [Bench.entry 2 "db.users.find()" "db.users.oops()"] = Ok st
        /\ execution_errors st = 1
        /\ report st = Ok r
        /\ report_incorrect r = 1)
  /\ succeeds_with Bench.json_loads
       (Bench.run_mongosh (PStr "shop") (js_script "db.users.audit()"))
       (PStr "3 ERRORS LOGGED")
  /\ (exists st,
        Bench.run [Bench.entry 6 "db.users.name()" "db.users.audit()"] = Ok st
        /\ execution_errors st = 1
        /\ correct_count st = 0
        /\ count_mismatches (log_file st) = 0).
Proof.
  split; [vm_compute; reflexivity|].
  split; [do 2 eexists; (split; [vm_compute; reflexivity|]);
          repeat split; vm_compute; reflexivity|].
  split; [do 2 eexists; (split; [vm_compute; reflexivity|]);
          repeat split; vm_compute; reflexivity|].
  split.
  - eexists. split; [vm_compute; reflexivity|]. split; reflexivity.
  - eexists. split; [vm_compute; reflexivity|]. repeat split.
Qed.

(** C3, amended: when the loop has run to its end, every record has its
    two results, and the counters are these. The error tally is the number
    of records whose predicted result is a text with ERROR in it, whatever
    the gold result is and whether or not the predicted query failed; the
    correct count is the number of the other records whose two results the
    comparator accepts; the logged mismatches are the rest. The reported
    incorrect count, total minus correct, is the error tally plus the
    number of mismatches. A predicted result that is a failure of the
    executor is tallied as an error exactly when it is neither
    UNSAFE_OR_EMPTY nor MONGOSH_NOT_FOUND, and the comparator accepts no
    record of which a result is a failure. *)
Theorem batch_verdicts float_repr run_mongosh json_loads data st :
  run_loop float_repr run_mongosh json_loads initial_state data = Ok st ->
  exists rs,
    batch_results run_mongosh json_loads data = Ok rs
    /\ length rs = length data
    /\ total_count st = Z.of_nat (length data)
    /\ execution_errors st
       = Z.of_nat (length (filter (fun r => is_error_text (snd r) = true) rs))
    /\ correct_count st
       = Z.of_nat (length (filter
                     (fun r => is_error_text (snd r) = false
                               /\ compare_results float_repr (fst r) (snd r)
                                  = true) rs))
    /\ count_mismatches (log_file st)
       = Z.of_nat (length (filter
                     (fun r => is_error_text (snd r) = false
                               /\ compare_results float_repr (fst r) (snd r)
                                  = false) rs))
    /\ (exists r,
          report st = Ok r
          /\ report_incorrect r = total_count st - correct_count st
          /\ report_incorrect r
             = execution_errors st + count_mismatches (log_file st))
    /\ Forall (fun r =>
         (failure_result (snd r) ->
          (is_error_text (snd r) = true
           <-> snd r <> PStr "UNSAFE_OR_EMPTY"
               /\ snd r <> PStr "MONGOSH_NOT_FOUND"))
         /\ (failure_result (fst r) \/ failure_result (snd r) ->
             compare_results float_repr (fst r) (snd r) = false)) rs.
Proof.
  intros H.
  destruct (run_loop_counts _ _ _ _ _ _ H)
    as (rs & Hrs & Hlen & Ht & He & Hk & Hm).
  cbn in Ht, He, Hk, Hm. change (count_mismatches []) with 0 in Hm.
  pose proof (count_verdict_partition float_repr rs) as Hp.
  destruct (count_verdict_filters float_repr rs) as (Fe & Fk & Fm).
  destruct (run_loop_bounds _ _ _ _ _ H) as (_ & Hb & _).
  destruct (report_produced st Hb) as (acc & _ & Hr).
  exists rs. split; [exact Hrs|]. split; [exact Hlen|].
  split; [exact Ht|]. split; [now rewrite <- Fe|].
  split; [now rewrite <- Fk|]. split; [now rewrite <- Fm|]. split.
  - eexists. split; [exact Hr|]. cbn [report_incorrect].
    split; [reflexivity | lia].
  - apply Forall_forall. intros r _. split.
    + apply failure_result_error_text.
    + apply failure_result_compare.
Qed.

Lemma batch_verdicts_witness :
  exists st,
    Bench.run Bench.sample_batch = Ok st
    /\ total_count st = 3
    /\ correct_count st = 1
    /\ execution_errors st = 1
    /\ count_mismatches (log_file st) = 1
    /\ exists r, report st = Ok r /\ report_incorrect r = 2.
Proof.
  destruct (Bench.run Bench.sample_batch) as [st|e] eqn:E;
    [|vm_compute in E; discriminate E].
  destruct (batch_verdicts Bench.float_repr Bench.run_mongosh Bench.json_loads
              Bench.sample_batch st E)
    as (rs & Hrs & _ & Ht & He & Hk & Hm & (r & Hr & _ & Hi) & _).
  vm_compute in Hrs. injection Hrs as <-.
  exists st. split; [reflexivity|]. split; [exact Ht|].
  split; [exact Hk|]. split; [exact He|]. split; [exact Hm|].
  exists r. split; [exact Hr|]. rewrite Hi, He, Hm. reflexivity.
Defined.

(** ** Rejected queries in the loop *)

(** C4, as stated, fails: a record whose predicted query names a forbidden
    keyword adds nothing to the error tally; it is logged as a mismatch and
    reported as incorrect. *)
Lemma rejected_query_counted_incorrect :
  Bench.execute (PStr "shop") (PStr "db.users.Drop()")
  = Ok (PStr "UNSAFE_OR_EMPTY")
  /\ exists st r,
       Bench.run [Bench.entry 4 "db.users.find()" "db.users.Drop()"] = Ok st
       /\ execution_errors st = 0
       /\ count_mismatches (log_file st) = 1
       /\ report st = Ok r
       /\ report_incorrect r = 1.
Proof.
  split; [vm_compute; reflexivity|].
  do 2 eexists. split; [vm_compute; reflexivity|].
  repeat split; vm_compute; reflexivity.
Qed.

(** C4, amended: for a query text that the safety pre-check turns down, the
    executor raises nothing and returns the sentinel UNSAFE_OR_EMPTY,
    whatever the database and the shell are. The loop body can still raise
    on such a record, when the other query is not a text; whenever it
    completes on a record whose gold or predicted query is such a text, the
    total goes up by one and the correct count stays as it is, and when it
    is the predicted query that is turned down the error tally stays as it
    is and the record is logged as a mismatch, which the report counts as
    incorrect. *)
Theorem rejected_query_not_tallied float_repr run_mongosh json_loads st items q :
  unsafe_or_empty q ->
  (forall db_name,
     execute_mongo_query run_mongosh json_loads db_name (PStr q)
     = Ok (PStr "UNSAFE_OR_EMPTY"))
  /\ forall st',
       dict_get items "gold_mql" = Some (PStr q)
       \/ dict_get items "generated_mql" = Some (PStr q) ->
       process_entry float_repr run_mongosh json_loads st (PDict items)
       = Ok st' ->
       total_count st' = total_count st + 1
       /\ correct_count st' = correct_count st
       /\ (dict_get items "generated_mql" = Some (PStr q) ->
           counted Incorrect st st').
Proof.
  intros Hu.
  split; [intros db_name; now apply unsafe_or_empty_execute|].
  intros st' Hside Hst.
  destruct (process_entry_has_results _ _ _ _ _ _ Hst) as ([g p] & Hr).
  destruct (process_entry_counted float_repr run_mongosh json_loads st _ _ Hr)
    as (st1 & Hst1 & Hc).
  rewrite Hst in Hst1. injection Hst1 as <-.
  unfold entry_results in Hr. cbn [entry_get] in Hr.
  cbn [mbind result_bind] in Hr.
  set (db_id := default PNone (dict_get items "db_id")) in Hr.
  assert (dict_get items "gold_mql" = Some (PStr q) -> g = PStr "UNSAFE_OR_EMPTY")
    as Hg.
  { intros E. rewrite E in Hr. cbn [default from_option id] in Hr.
    rewrite (unsafe_or_empty_execute _ _ db_id _ Hu) in Hr.
    cbn [mbind result_bind] in Hr.
    destruct (execute_mongo_query _ _ _ _); cbn [mbind result_bind] in Hr;
      congruence. }
  assert (dict_get items "generated_mql" = Some (PStr q)
          -> p = PStr "UNSAFE_OR_EMPTY") as Hp.
  { intros E. rewrite E in Hr. cbn [default from_option id] in Hr.
    rewrite (unsafe_or_empty_execute _ _ db_id _ Hu) in Hr.
    destruct (execute_mongo_query _ _ _ _); cbn [mbind result_bind] in Hr;
      congruence. }
  assert (compare_results float_repr g p = false) as Hcmp.
  { destruct Hside as [E | E].
    - rewrite (Hg E). apply compare_results_str_l.
    - rewrite (Hp E). apply compare_results_str_r. }
  unfold judge in Hc. cbn [fst snd] in Hc. rewrite Hcmp in Hc.
  destruct Hc as (Ht & Hc). split; [exact Ht|]. split.
  - destruct (is_error_text p); apply Hc.
  - intros E. rewrite (Hp E) in Hc. split; [exact Ht|exact Hc].
Qed.

Lemma rejected_query_not_tallied_witness :
  unsafe_or_empty "db.users.Drop()"
  /\ exists st',
       process_entry Bench.float_repr Bench.run_mongosh Bench.json_loads
         initial_state (Bench.entry 4 "db.users.find()" "db.users.Drop()")
       = Ok st'
       /\ total_count st' = 1
       /\ correct_count st' = 0
       /\ execution_errors st' = 0.
Proof.
  assert (unsafe_or_empty "db.users.Drop()") as Hu.
  { right. exists "drop". split; [right; left; reflexivity|].
    exists "db.users.", "Drop", "()". split; reflexivity. }
  split; [exact Hu|].
  destruct (process_entry Bench.float_repr Bench.run_mongosh Bench.json_loads
              initial_state (Bench.entry 4 "db.users.find()" "db.users.Drop()"))
    as [st'|e] eqn:E; [|vm_compute in E; discriminate E].
  destruct (rejected_query_not_tallied Bench.float_repr Bench.run_mongosh
              Bench.json_loads initial_state
              [("question_id", PInt 4); ("db_id", PStr "shop");
               ("gold_mql", PStr "db.users.find()");
               ("generated_mql", PStr "db.users.Drop()")]
              "db.users.Drop()" Hu)
    as (_ & Hloop).
  destruct (Hloop st' (or_intror eq_refl) E) as (Ht & Hc & Hinc).
  exists st'. split; [reflexivity|]. split; [exact Ht|]. split; [exact Hc|].
  destruct (Hinc eq_refl) as (_ & He & _). exact He.
Defined.

(** ** Report *)




Example main_no_records :
  main Bench.float_repr Bench.run_mongosh Bench.json_loads []
  = Ok (mkReport 0 0 0 0 (NumInt 0)).
Proof. reflexivity. Qed.

(** * Further properties *)

(** ** The safety pre-check, both ways *)

Lemma prefix_split w s :
  String.prefix w s = true -> exists post, s = w ++ post.
Proof.
  revert s. induction w as [|c w IH]; intros s H.
  - exists s. reflexivity.
  - destruct s as [|d s]; [discriminate H|]. cbn [String.prefix] in H.
    destruct (ascii_dec c d) as [<-|]; [|discriminate H].
    destruct (IH s H) as (post & ->). exists post. reflexivity.
Qed.

Lemma str_in_split w s :
  Text.str_in w s = true -> exists pre post, s = pre ++ w ++ post.
Proof.
  induction s as [|c s IH]; cbn [Text.str_in]; intros H.
  - apply orb_true_iff in H as [H | H]; [|discriminate H].
    destruct (prefix_split _ _ H) as (post & E). exists "", post. exact E.
  - apply orb_true_iff in H as [H | H].
    + destruct (prefix_split _ _ H) as (post & E). exists "", post. exact E.
    + destruct (IH H) as (pre & post & ->). exists (String c pre), post.
      reflexivity.
Qed.

Lemma lower_split q a b :
  Text.lower q = a ++ b ->
  exists q1 q2, q = q1 ++ q2 /\ Text.lower q1 = a /\ Text.lower q2 = b.
Proof.
  revert q. induction a as [|c a IH]; intros q H.
  - exists "", q. auto.
  - destruct q as [|d q]; [discriminate H|].
    cbn [Text.lower] in H. change (String c a ++ b) with (String c (a ++ b)) in H.
    injection H as Hc H.
    destruct (IH q H) as (q1 & q2 & -> & H1 & H2).
    exists (String d q1), q2. cbn [Text.lower]. rewrite Hc, H1. auto.
Qed.

Lemma str_in_contains_ignoring_case q w :
  Text.str_in w (Text.lower q) = true -> contains_ignoring_case q w.
Proof.
  intros H. destruct (str_in_split _ _ H) as (pre & post & E).
  destruct (lower_split _ _ _ E) as (q1 & q23 & -> & _ & E2).
  destruct (lower_split _ _ _ E2) as (q2 & q3 & -> & Hmid & _).
  exists q1, q2, q3. auto.
Qed.

Lemma forbidden_hit_iff q :
  existsb (fun word => Text.str_in word (Text.lower q)) forbidden = true
  <-> exists w, In w forbidden /\ contains_ignoring_case q w.
Proof.
  rewrite existsb_exists. split; intros (w & Hin & H); exists w; split;
    auto using str_in_contains_ignoring_case, contains_ignoring_case_str_in.
Qed.

(** X1: the pre-check answers [None] for a text exactly when one of the
    seven keywords occurs in it with case ignored; every other text comes
    back unchanged. *)
Theorem clean_query_rejects_iff q :
  (clean_query (PStr q) = Ok None
   <-> exists w, In w forbidden /\ contains_ignoring_case q w)
  /\ (clean_query (PStr q) = Ok (Some q)
      <-> forall w, In w forbidden -> ~ contains_ignoring_case q w).
Proof.
  pose proof (forbidden_hit_iff q) as Hiff. unfold clean_query.
  destruct (existsb _ forbidden) eqn:E.
  - destruct (proj1 Hiff eq_refl) as (w & Hin & Hc).
    split; split; try discriminate; eauto.
    intros H. destruct (H w Hin Hc).
  - assert (forall w, In w forbidden -> ~ contains_ignoring_case q w) as Hno.
    { intros w Hin Hc. assert (false = true) as F by (apply Hiff; eauto).
      discriminate F. }
    split; split; try discriminate; auto.
    intros (w & Hin & Hc). destruct (Hno w Hin Hc).
Qed.

(** ** The executor on a query text *)

Lemma unsafe_or_empty_dec q : unsafe_or_empty q \/ ~ unsafe_or_empty q.
Proof.
  unfold unsafe_or_empty.
  destruct (String.eqb_spec q "") as [->|Hne]; [left; left; reflexivity|].
  destruct (existsb (fun word => Text.str_in word (Text.lower q)) forbidden)
    eqn:E.
  - left. right. now apply forbidden_hit_iff.
  - right. intros [H | H]; [contradiction|].
    apply forbidden_hit_iff in H. congruence.
Qed.

Lemma accepted_query_act json_loads db_name q :
  ~ unsafe_or_empty q ->
  execute_mongo_query_act json_loads db_name (PStr q)
  = Ok (SubprocessRun db_name (js_script q) (decode_outcome json_loads)).
Proof.
  intros Hsafe. apply accepted_query_contacts_backend.
  - intros ->. apply Hsafe. left. reflexivity.
  - destruct (existsb _ forbidden) eqn:E; [|reflexivity].
    destruct Hsafe. right. now apply forbidden_hit_iff.
Qed.

(** X2: for a query text the executor starts the shell exactly when the
    text is not empty and holds no keyword, and then with the script built
    from the unchanged text; otherwise it returns without starting it. *)
Theorem shell_started_iff json_loads db_name q :
  exists act,
    execute_mongo_query_act json_loads db_name (PStr q) = Ok act
    /\ (contacts_backend act = false <-> unsafe_or_empty q)
    /\ (contacts_backend act = true ->
        act = SubprocessRun db_name (js_script q) (decode_outcome json_loads)).
Proof.
  destruct (unsafe_or_empty_dec q) as [H | H].
  - rewrite (unsafe_or_empty_returns_sentinel json_loads db_name q H).
    eexists. split; [reflexivity|]. cbn [contacts_backend].
    split; [tauto | discriminate].
  - rewrite (accepted_query_act json_loads db_name q H).
    eexists. split; [reflexivity|]. cbn [contacts_backend].
    split; [|reflexivity]. split; [discriminate | contradiction].
Qed.

(** X3: the executor raises exactly when the query is not a text; the
    exception is the [AttributeError] of the pre-check. *)
Theorem execute_raises_iff run_mongosh json_loads db_name query :
  (exists e, execute_mongo_query run_mongosh json_loads db_name query = Raise e)
  <-> isinstance_str query = false.
Proof.
  split.
  - intros (e & H). destruct query; try reflexivity.
    destruct (execute_str_ok run_mongosh json_loads db_name s) as (v & Hv).
    congruence.
  - intros H. exists (AttributeError "lower").
    destruct query; try discriminate H; reflexivity.
Qed.

(** X4: on a query text the executor never raises. What it returns is one
    of its failure results or the decoded output of a clean run of the
    script of this very query. *)
Theorem execute_text_result run_mongosh json_loads db_name q :
  exists v,
    execute_mongo_query run_mongosh json_loads db_name (PStr q) = Ok v
    /\ (failure_result v
        \/ succeeds_with json_loads (run_mongosh db_name (js_script q)) v).
Proof.
  unfold execute_mongo_query.
  destruct (unsafe_or_empty_dec q) as [H | H].
  - rewrite (unsafe_or_empty_returns_sentinel json_loads db_name q H).
    eexists. split; [reflexivity|]. left. constructor.
  - rewrite (accepted_query_act json_loads db_name q H).
    eexists. split; [reflexivity|]. cbn [perform].
    apply decode_outcome_cases.
Qed.

(** ** White space around the output of the shell *)

Lemma lstrip_all_space ws : all_space ws = true -> Text.lstrip ws = "".
Proof.
  induction ws as [|c ws IH]; [reflexivity|]. cbn [all_space Text.lstrip].
  intros [Hc Hws]%andb_true_iff. rewrite Hc. now apply IH.
Qed.

Lemma rstrip_all_space ws : all_space ws = true -> Text.rstrip ws = "".
Proof.
  induction ws as [|c ws IH]; [reflexivity|]. cbn [all_space Text.rstrip].
  intros [Hc Hws]%andb_true_iff. rewrite (IH Hws), Hc. reflexivity.
Qed.

Lemma lstrip_space_app ws s :
  all_space ws = true -> Text.lstrip (ws ++ s) = Text.lstrip s.
Proof.
  induction ws as [|c ws IH]; [reflexivity|]. cbn [all_space].
  intros [Hc Hws]%andb_true_iff.
  change (String c ws ++ s) with (String c (ws ++ s)).
  cbn [Text.lstrip]. rewrite Hc. now apply IH.
Qed.

Lemma rstrip_app_space s ws :
  all_space ws = true -> Text.rstrip (s ++ ws) = Text.rstrip s.
Proof.
  intros Hws. induction s as [|c s IH].
  - now apply rstrip_all_space.
  - change (String c s ++ ws) with (String c (s ++ ws)).
    cbn [Text.rstrip]. now rewrite IH.
Qed.

Lemma lstrip_app_cases s t :
  (Text.lstrip s = "" /\ Text.lstrip (s ++ t) = Text.lstrip t)
  \/ Text.lstrip (s ++ t) = Text.lstrip s ++ t.
Proof.
  induction s as [|c s IH]; [left; auto|].
  change (String c s ++ t) with (String c (s ++ t)). cbn [Text.lstrip].
  destruct (Text.isspace c); [exact IH | right; reflexivity].
Qed.

Lemma strip_surrounded ws1 s ws2 :
  all_space ws1 = true -> all_space ws2 = true ->
  Text.strip (ws1 ++ s ++ ws2) = Text.strip s.
Proof.
  intros H1 H2. unfold Text.strip. rewrite (lstrip_space_app _ _ H1).
  destruct (lstrip_app_cases s ws2) as [[E1 E2] | E].
  - rewrite E2, E1, (lstrip_all_space _ H2). reflexivity.
  - rewrite E. now apply rstrip_app_space.
Qed.

(** X5: white space before and after the output of the shell does not
    change what the executor makes of a completed run. *)
Theorem output_padding_ignored json_loads ws1 stdout ws2 returncode :
  all_space ws1 = true ->
  all_space ws2 = true ->
  decode_outcome json_loads (Completed (ws1 ++ stdout ++ ws2) returncode)
  = decode_outcome json_loads (Completed stdout returncode).
Proof.
  intros H1 H2. cbn [decode_outcome].
  now rewrite (strip_surrounded _ _ _ H1 H2).
Qed.

Lemma output_padding_ignored_witness :
  all_space Text.newline = true
  /\ decode_outcome Bench.json_loads
       (Completed (Text.newline ++ Bench.out_ab ++ Text.newline) 0)
     = PList [Bench.doc 1; Bench.doc 2].
Proof.
  split; [reflexivity|].
  rewrite (output_padding_ignored Bench.json_loads Text.newline Bench.out_ab
             Text.newline 0 eq_refl eq_refl).
  vm_compute. reflexivity.
Defined.

(** ** Shapes the comparator accepts *)

(** X6: the comparator answers true only for two numbers that are equal or
    for two lists of the same length; no other pair of shapes matches, so a
    number never matches a list and two bare documents never match. *)
Theorem compare_results_true_shapes float_repr gold_res pred_res :
  compare_results float_repr gold_res pred_res = true ->
  (isinstance_number gold_res = true /\ isinstance_number pred_res = true
   /\ py_eq gold_res pred_res = true)
  \/ (exists g p, gold_res = PList g /\ pred_res = PList p
                  /\ length g = length p).
Proof.
  intros H.
  destruct gold_res as [ | b | n | f | s | g | a];
    destruct pred_res as [ | b' | n' | f' | s' | p | a'];
    try discriminate H; try (left; repeat split; exact H).
  right. exists g, p. repeat split.
  rewrite compare_results_lists in H.
  destruct (Nat.eqb_spec (length g) (length p)) as [E|]; [exact E|].
  discriminate H.
Qed.

Lemma compare_results_true_shapes_witness :
  Bench.compare (PInt 2) (PBool true) = false
  /\ Bench.compare (PList [PInt 2]) (PList [PInt 2]) = true
  /\ exists g p, PList [PInt 2] = PList g /\ PList [PInt 2] = PList p
                 /\ length g = length p.
Proof.
  split; [reflexivity|].
  assert (Bench.compare (PList [PInt 2]) (PList [PInt 2]) = true) as H
      by reflexivity.
  split; [exact H|].
  destruct (compare_results_true_shapes Bench.float_repr _ _ H)
    as [(Hn & _) | Hl]; [discriminate Hn | exact Hl].
Defined.

(** ** A value against itself *)

Lemma SFeqb_refl f : SFeqb f f = negb (is_nan f).
Proof.
  destruct f as [s | s | | s m e]; unfold SFeqb; cbn [SFcompare is_nan negb];
    try reflexivity.
  - now destruct s.
  - rewrite Z.compare_refl, Pos.compare_cont_refl. now destruct s.
Qed.

(** X7: a value compared with itself matches exactly when it is a list or
    a number other than NaN: the same string, the same bare document or
    null on both sides is no match. *)
Theorem compare_results_same float_repr v :
  compare_results float_repr v v
  = match v with
    | PList _ | PBool _ | PInt _ => true
    | PFloat f => negb (is_nan f)
    | PNone | PStr _ | PDict _ => false
    end.
Proof.
  destruct v as [ | b | n | f | s | l | a]; try reflexivity.
  - unfold compare_results. cbn. apply Z.eqb_refl.
  - unfold compare_results. cbn. apply Z.eqb_refl.
  - unfold compare_results.
    cbn [isinstance_str is_None isinstance_number orb andb py_eq as_number num_eq].
    apply SFeqb_refl.
  - apply compare_results_lists_iff; [reflexivity | right; reflexivity].
Qed.

(** ** Gold and predicted result exchanged *)

Lemma SFcompare_antisym f g :
  SFcompare g f = option_map CompOpp (SFcompare f g).
Proof.
  destruct f as [s | s | | s m e], g as [s' | s' | | s' m' e'];
    cbn [SFcompare option_map]; try reflexivity;
    try (destruct s; reflexivity); try (destruct s'; reflexivity);
    try (destruct s, s'; reflexivity).
  rewrite (Z.compare_antisym e e'), !Pos.compare_cont_spec.
  cbn [Pos.switch_Eq]. rewrite (Pos.compare_antisym m m').
  destruct s, s'; cbn [CompOpp]; try reflexivity;
    destruct (e ?= e')%Z; cbn [CompOpp]; try reflexivity;
    destruct (m ?= m')%positive; reflexivity.
Qed.

Lemma SFeqb_sym f g : SFeqb f g = SFeqb g f.
Proof.
  unfold SFeqb. rewrite (SFcompare_antisym f g).
  destruct (SFcompare f g) as [[ | | ]|]; reflexivity.
Qed.

Lemma num_eq_sym a b : num_eq a b = num_eq b a.
Proof.
  destruct a, b; cbn [num_eq]; auto using Z.eqb_sym, SFeqb_sym.
Qed.

Lemma same_object_nan_sym x y : same_object_nan x y = same_object_nan y x.
Proof. destruct x, y; cbn [same_object_nan]; auto using andb_comm. Qed.

Lemma py_eq_list_cons u a v b :
  py_eq (PList (u :: a)) (PList (v :: b))
  = (same_object_nan u v || py_eq u v) && py_eq (PList a) (PList b).
Proof. reflexivity. Qed.

Lemma py_eq_dict a b :
  py_eq (PDict a) (PDict b)
  = Nat.eqb (length a) (length b)
    && forallb (fun kv => match dict_get b (fst kv) with
                          | Some v => same_object_nan (snd kv) v || py_eq (snd kv) v
                          | None => false
                          end) a.
Proof.
  cbn [py_eq]. f_equal.
  induction a as [|[k u] a IH]; [reflexivity|]. cbn [forallb fst snd].
  now rewrite IH.
Qed.

Lemma dict_get_Some_elem {A : Type} (items : list (string * A)) k v :
  dict_get items k = Some v -> (k, v) ∈ items.
Proof.
  induction items as [|[k' v'] items IH]; cbn [dict_get]; [discriminate|].
  destruct (String.eqb_spec k' k) as [->|Hne].
  - intros [= ->]. left.
  - intros H. right. now apply IH.
Qed.

Lemma dict_get_NoDup {A : Type} (items : list (string * A)) k v :
  NoDup (map fst items) -> (k, v) ∈ items -> dict_get items k = Some v.
Proof.
  induction items as [|[k' v'] items IH]; intros Hnd Hin.
  - now apply elem_of_nil in Hin.
  - apply NoDup_cons in Hnd as [Hk' Hnd]. cbn [dict_get].
    apply elem_of_cons in Hin as [[= -> ->] | Hin].
    + now rewrite String.eqb_refl.
    + destruct (String.eqb_spec k' k) as [->|Hne]; [|now apply IH].
      destruct Hk'. apply list_elem_of_fmap. now exists (k, v).
Qed.

Lemma py_eq_sym_imp x :
  wf_pyval x -> forall y, wf_pyval y -> py_eq x y = true -> py_eq y x = true.
Proof.
  induction x as [ | t | n | f | s | l IH | a IH] using pyval_nested_ind;
    intros Hx y Hy H.
  - destruct y; try discriminate H. reflexivity.
  - destruct y; try discriminate H; cbn [py_eq as_number] in *;
      now rewrite num_eq_sym.
  - destruct y; try discriminate H; cbn [py_eq as_number] in *;
      now rewrite num_eq_sym.
  - destruct y; try discriminate H; cbn [py_eq as_number] in *;
      now rewrite num_eq_sym.
  - destruct y as [ | | | | s' | | ]; try discriminate H.
    cbn [py_eq] in *. now rewrite String.eqb_sym.
  - destruct y as [ | | | | | b | ]; try discriminate H.
    apply wf_pyval_list in Hx, Hy.
    revert b Hy H. induction l as [|u l IHl]; intros [|v b] Hy H;
      try discriminate H; [reflexivity|].
    rewrite py_eq_list_cons in *.
    apply Forall_cons in IH as [IHu IH]. apply Forall_cons in Hx as [Hu Hx].
    apply Forall_cons in Hy as [Hv Hy].
    apply andb_true_iff in H as [H1 H2]. apply andb_true_iff. split.
    + rewrite same_object_nan_sym.
      apply orb_true_iff in H1 as [H1 | H1]; [now rewrite H1|].
      rewrite (IHu Hu v Hv H1). apply orb_true_r.
    + now apply IHl.
  - destruct y as [ | | | | | | b]; try discriminate H.
    apply wf_pyval_dict in Hx as [Hnda Hx], Hy as [Hndb Hy].
    rewrite py_eq_dict in *.
    apply andb_true_iff in H as [Hlen H]. apply Nat.eqb_eq in Hlen.
    rewrite forallb_forall in H.
    apply andb_true_iff. split; [apply Nat.eqb_eq; congruence|].
    assert (map fst a ≡ₚ map fst b) as Hkeys.
    { apply submseteq_length_Permutation.
      - apply NoDup_submseteq; [exact Hnda|].
        intros k Hk. apply list_elem_of_fmap in Hk as ([k' u] & -> & Hin).
        apply list_elem_of_In in Hin. specialize (H _ Hin). cbn [fst snd] in H.
        destruct (dict_get b k') as [v|] eqn:Eb; [|discriminate H].
        apply dict_get_Some_elem in Eb.
        apply list_elem_of_fmap. now exists (k', v).
      - rewrite !length_map. lia. }
    apply forallb_forall. intros [k v] Hin. cbn [fst snd].
    apply list_elem_of_In in Hin.
    assert (k ∈ map fst a) as Hk.
    { rewrite Hkeys. apply list_elem_of_fmap. now exists (k, v). }
    apply list_elem_of_fmap in Hk as ([k' u] & Ek & Hina). cbn [fst] in Ek.
    subst k'. rewrite (dict_get_NoDup a k u Hnda Hina).
    pose proof (H _ (proj1 (list_elem_of_In _ _) Hina)) as Hu.
    cbn [fst snd] in Hu. rewrite (dict_get_NoDup b k v Hndb Hin) in Hu.
    rewrite Forall_forall in IH, Hx, Hy.
    rewrite same_object_nan_sym.
    apply orb_true_iff in Hu as [Hu | Hu]; [now rewrite Hu|].
    pose proof (IH _ Hina (Hx _ Hina) v (Hy _ Hin) Hu) as Hs.
    cbn [snd] in Hs. rewrite Hs. apply orb_true_r.
Qed.

Lemma py_eq_sym x y : wf_pyval x -> wf_pyval y -> py_eq x y = py_eq y x.
Proof.
  intros Hx Hy. apply eq_true_iff_eq.
  split; now apply py_eq_sym_imp.
Qed.

(** X8: for values whose dicts hold no key twice the comparator gives the
    same answer when the gold result and the predicted result change
    places. *)
Theorem compare_results_sym float_repr gold_res pred_res :
  wf_pyval gold_res -> wf_pyval pred_res ->
  compare_results float_repr gold_res pred_res
  = compare_results float_repr pred_res gold_res.
Proof.
  intros Hg Hp. pose proof (py_eq_sym _ _ Hg Hp) as E.
  destruct gold_res as [ | b | n | f | s | g | a];
    destruct pred_res as [ | b' | n' | f' | s' | p | a'];
    try reflexivity; try exact E.
  rewrite !compare_results_lists, E, (Nat.eqb_sym (length p)).
  clear E. destruct (negb _); [reflexivity|].
  destruct (py_eq (PList p) (PList g)); [reflexivity|].
  apply bool_decide_ext. split; intros ->; reflexivity.
Qed.

Lemma compare_results_sym_witness :
  wf_pyval (PList [PDict Bench.nested_ab])
  /\ wf_pyval (PList [PDict Bench.nested_ba])
  /\ Bench.compare (PList [PDict Bench.nested_ab]) (PList [PDict Bench.nested_ba])
     = Bench.compare (PList [PDict Bench.nested_ba]) (PList [PDict Bench.nested_ab]).
Proof.
  assert (wf_pyval (PList [PDict Bench.nested_ab])) as Ha.
  { split; [exact bench_nested_wf | exact I]. }
  assert (wf_pyval (PList [PDict Bench.nested_ba])) as Hb.
  { apply wf_pyval_list. constructor; [|constructor].
    apply wf_pyval_dict. split.
    - apply (bool_decide_unpack _). vm_compute. exact I.
    - apply Forall_cons. split; [|repeat constructor].
      apply wf_pyval_dict. split.
      + apply (bool_decide_unpack _). vm_compute. exact I.
      + repeat constructor. }
  split; [exact Ha|]. split; [exact Hb|].
  exact (compare_results_sym Bench.float_repr _ _ Ha Hb).
Defined.

(** ** Documents reordered inside and outside *)

Lemma dumps_key_reorder_list float_repr g g' :
  Forall wf_pyval g -> Forall2 key_reorder g g' ->
  map (Json.dumps float_repr) g = map (Json.dumps float_repr) g'.
Proof.
  intros Hwf Hall. induction Hall as [|x y l l' Hxy Hall IH]; [reflexivity|].
  apply Forall_cons in Hwf as [Hx Hwf]. cbn [map].
  rewrite (dumps_key_reorder float_repr x Hx y Hxy). f_equal. now apply IH.
Qed.

(** X9: a list of documents matches every list that holds the same
    documents in another order, each with the items of its dicts in another
    order. *)
Theorem reordered_documents_match float_repr g g' p :
  Forall wf_pyval g ->
  Forall2 key_reorder g g' ->
  g' ≡ₚ p ->
  compare_results float_repr (PList g) (PList p) = true.
Proof.
  intros Hwf Hall Hperm. apply compare_results_lists_iff.
  - rewrite (Forall2_length _ _ _ Hall). now apply Permutation_length.
  - right. unfold canonical_set.
    rewrite (dumps_key_reorder_list float_repr g g' Hwf Hall).
    now rewrite Hperm.
Qed.

Lemma reordered_documents_match_witness :
  Bench.compare (PList [PDict Bench.nested_ab; Bench.doc 1])
    (PList [Bench.doc 1; PDict Bench.nested_ba]) = true.
Proof.
  apply (reordered_documents_match Bench.float_repr _
           [PDict Bench.nested_ba; Bench.doc 1]).
  - apply Forall_cons. split; [exact bench_nested_wf|].
    apply Forall_cons. split; [|constructor].
    apply wf_pyval_dict. split; [|repeat constructor].
    apply (bool_decide_unpack _). vm_compute. exact I.
  - constructor; [exact bench_nested_reorder|].
    constructor; [apply kr_same | constructor].
  - apply perm_swap.
Defined.

(** ** Batches that reach the report *)

Lemma execute_ok_is_text run_mongosh json_loads db_name query v :
  execute_mongo_query run_mongosh json_loads db_name query = Ok v ->
  exists q, query = PStr q.
Proof. destruct query; try discriminate; eauto. Qed.

Lemma default_is_text (o : option pyval) q :
  default PNone o = PStr q -> o = Some (PStr q).
Proof. destruct o; cbn; [congruence | discriminate]. Qed.

Lemma process_entry_well_formed float_repr run_mongosh json_loads st entry st' :
  process_entry float_repr run_mongosh json_loads st entry = Ok st' ->
  well_formed_entry entry.
Proof.
  unfold process_entry. intros H.
  destruct entry as [ | | | | | | items]; try discriminate H.
  cbn [entry_get mbind result_bind] in H.
  destruct (execute_mongo_query run_mongosh json_loads _
              (default PNone (dict_get items "gold_mql"))) as [gr|] eqn:Eg;
    [|discriminate H].
  cbn [mbind result_bind] in H.
  destruct (execute_mongo_query run_mongosh json_loads _
              (default PNone (dict_get items "generated_mql"))) as [pr|] eqn:Ep;
    [|discriminate H].
  apply execute_ok_is_text in Eg as (gq & Eg), Ep as (pq & Ep).
  exists items, gq, pq. auto using default_is_text.
Qed.

Lemma run_loop_well_formed float_repr run_mongosh json_loads data :
  forall st st',
    run_loop float_repr run_mongosh json_loads st data = Ok st' ->
    Forall well_formed_entry data.
Proof.
  induction data as [|entry data IH]; intros st st' H; [constructor|].
  cbn [run_loop] in H.
  destruct (process_entry float_repr run_mongosh json_loads st entry)
    as [st1|] eqn:E; [|discriminate H].
  cbn [mbind result_bind] in H. constructor.
  - exact (process_entry_well_formed _ _ _ _ _ _ E).
  - exact (IH _ _ H).
Qed.

(** X10: the script reaches its report only when every record is a dict
    whose gold and predicted queries are texts; one record of another kind
    makes the whole run raise, whatever the other records are. The record
    and database identifiers may be missing. *)
Theorem report_reached_only_if float_repr run_mongosh json_loads data r :
  main float_repr run_mongosh json_loads data = Ok r ->
  Forall well_formed_entry data.
Proof.
  unfold main. intros H.
  destruct (run_loop float_repr run_mongosh json_loads initial_state data)
    as [st|] eqn:E; [|discriminate H].
  exact (run_loop_well_formed _ _ _ _ _ _ E).
Qed.

Lemma report_reached_only_if_witness :
  exists r,
    main Bench.float_repr Bench.run_mongosh Bench.json_loads Bench.sample_batch
    = Ok r
    /\ Forall well_formed_entry Bench.sample_batch.
Proof.
  destruct (main Bench.float_repr Bench.run_mongosh Bench.json_loads
              Bench.sample_batch) as [r|e] eqn:E;
    [|vm_compute in E; discriminate E].
  exists r. split; [reflexivity|].
  exact (report_reached_only_if Bench.float_repr Bench.run_mongosh
           Bench.json_loads Bench.sample_batch r E).
Defined.

(** ** The log and the counters *)

Ltac bind_cases H :=
  repeat match type of H with
         | context [mbind _ ?r] =>
             lazymatch r with
             | Ok _ => fail
             | Raise _ => fail
             | _ => destruct r eqn:?; cbn [mbind result_bind] in H;
                    try discriminate H
             end
         end.

Ltac bind_replay :=
  cbn [mbind result_bind];
  repeat match goal with
         | E : ?r = Ok _ |- context [mbind _ ?r] =>
             rewrite E; cbn [mbind result_bind]
         end.

Lemma process_entry_log float_repr run_mongosh json_loads st entry st' :
  process_entry float_repr run_mongosh json_loads st entry = Ok st' ->
  Z.of_nat (length (log_file st')) - (total_count st' - correct_count st')
  = Z.of_nat (length (log_file st)) - (total_count st - correct_count st).
Proof.
  unfold process_entry. intros H. bind_cases H.
  destruct (is_error_text _); [|destruct (compare_results _ _ _)];
    injection H as <-;
    cbn [log_file total_count correct_count];
    rewrite ?length_app; cbn [length]; lia.
Qed.

Lemma run_loop_log float_repr run_mongosh json_loads data :
  forall st st',
    run_loop float_repr run_mongosh json_loads st data = Ok st' ->
    Z.of_nat (length (log_file st')) - (total_count st' - correct_count st')
    = Z.of_nat (length (log_file st)) - (total_count st - correct_count st).
Proof.
  induction data as [|entry data IH]; intros st st' H; cbn [run_loop] in H.
  - now injection H as <-.
  - destruct (process_entry float_repr run_mongosh json_loads st entry)
      as [st1|] eqn:E; [|discriminate H].
    cbn [mbind result_bind] in H.
    rewrite (IH _ _ H). exact (process_entry_log _ _ _ _ _ _ E).
Qed.

(** X11: when the loop has run to its end the log holds one record for
    every record of the batch that is not counted correct, and none for
    the others: its length is the incorrect count of the report. *)
Theorem log_length_is_incorrect_count float_repr run_mongosh json_loads data st :
  run_loop float_repr run_mongosh json_loads initial_state data = Ok st ->
  exists r,
    report st = Ok r
    /\ Z.of_nat (length (log_file st)) = report_incorrect r.
Proof.
  intros H. pose proof (run_loop_log _ _ _ _ _ _ H) as E.
  destruct (run_loop_bounds _ _ _ _ _ H) as (_ & Hb & _).
  destruct (report_produced st Hb) as (acc & _ & Hr).
  eexists. split; [exact Hr|].
  cbn in E. cbn [report_incorrect]. lia.
Qed.

Lemma log_length_is_incorrect_count_witness :
  exists st r,
    Bench.run Bench.sample_batch = Ok st
    /\ report st = Ok r
    /\ Z.of_nat (length (log_file st)) = 2
    /\ report_incorrect r = 2.
Proof.
  destruct (Bench.run Bench.sample_batch) as [st|e] eqn:E;
    [|vm_compute in E; discriminate E].
  destruct (log_length_is_incorrect_count Bench.float_repr Bench.run_mongosh
              Bench.json_loads Bench.sample_batch st E) as (r & Hr & HL).
  exists st, r. split; [reflexivity|]. split; [exact Hr|].
  vm_compute in E. injection E as <-.
  split; [reflexivity | rewrite <- HL; reflexivity].
Defined.

(** X12: in the report of a batch that runs to its end the counts are not
    negative, the correct count and the error tally together do not exceed
    the total, and the accuracy is a number with a value between 0 and
    100. *)
Theorem report_within_bounds float_repr run_mongosh json_loads data r :
  main float_repr run_mongosh json_loads data = Ok r ->
  0 <= report_correct r
  /\ 0 <= report_errors r
  /\ report_correct r + report_errors r <= report_total r
  /\ report_total r = Z.of_nat (length data)
  /\ exists v, number_value (report_accuracy r) = Some v
               /\ (0 <= v <= 100)%Q.
Proof.
  unfold main. intros H.
  destruct (run_loop float_repr run_mongosh json_loads initial_state data)
    as [st|] eqn:E; [|discriminate H].
  cbn [mbind result_bind] in H.
  destruct (run_loop_bounds _ _ _ _ _ E) as (Ht & Hb & He & Hs).
  destruct (report_produced st Hb) as (acc & Hacc & Hr).
  rewrite Hr in H. injection H as <-.
  cbn [report_correct report_errors report_total report_accuracy].
  split; [lia|]. split; [exact He|]. split; [exact Hs|]. split; [exact Ht|].
  destruct (Z_lt_le_dec 0 (total_count st)) as [Hpos|Hz].
  - destruct (accuracy_in_range _ _ Hb Hpos) as (q & v & _ & Ha & Hv & Hrange).
    exists v. rewrite Hacc in Ha. injection Ha as ->. split; assumption.
  - rewrite accuracy_no_records in Hacc by exact Hz. injection Hacc as <-.
    exists 0%Q. split; [reflexivity|]. split; discriminate.
Qed.

Lemma report_within_bounds_witness :
  exists r,
    main Bench.float_repr Bench.run_mongosh Bench.json_loads Bench.sample_batch
    = Ok r
    /\ report_correct r + report_errors r <= report_total r
    /\ exists v, number_value (report_accuracy r) = Some v
                 /\ (0 <= v <= 100)%Q.
Proof.
  destruct (main Bench.float_repr Bench.run_mongosh Bench.json_loads
              Bench.sample_batch) as [r|e] eqn:E;
    [|vm_compute in E; discriminate E].
  exists r. split; [reflexivity|].
  destruct (report_within_bounds Bench.float_repr Bench.run_mongosh
              Bench.json_loads Bench.sample_batch r E)
    as (_ & _ & Hs & _ & Ha).
  split; [exact Hs | exact Ha].
Defined.

(** ** Failures of the predicted query in the loop *)

Lemma not_unsafe_by_check q :
  q <> "" ->
  existsb (fun word => Text.str_in word (Text.lower q)) forbidden = false ->
  ~ unsafe_or_empty q.
Proof.
  intros Hne Hc [-> | H]; [now apply Hne|].
  apply forbidden_hit_iff in H. congruence.
Qed.

Lemma shell_failure_error_text json_loads out :
  shell_failure json_loads out ->
  is_error_text (decode_outcome json_loads out) = true.
Proof.
  destruct out as [stdout rc | | msg]; cbn [shell_failure decode_outcome].
  - intros H.
    assert (forall output,
              is_error_text (PStr ("EXECUTION_ERROR: " ++ output)) = true) as Hx.
    { intros output. exact (str_in_app "ERROR" "EXECUTION_" (": " ++ output)). }
    destruct (Text.str_in "ERROR:" (Text.strip stdout)); [apply Hx|].
    destruct (Z.eqb_spec rc 0) as [->|Hrc]; [|apply Hx]. cbn [negb orb].
    destruct (json_loads (Text.strip stdout)) as [v| |e] eqn:Ej;
      [|reflexivity|exact (str_in_app "ERROR" "SYSTEM_" (": " ++ e))].
    destruct H as [H | [H | H]];
      [discriminate H | now destruct H | now destruct (H v)].
  - intros [].
  - intros _. exact (str_in_app "ERROR" "SYSTEM_" (": " ++ msg)).
Qed.

Lemma process_entry_text_queries float_repr run_mongosh json_loads st items gq pq :
  dict_get items "gold_mql" = Some (PStr gq) ->
  dict_get items "generated_mql" = Some (PStr pq) ->
  ~ unsafe_or_empty pq ->
  exists gr,
    process_entry float_repr run_mongosh json_loads st (PDict items)
    = (let pr := decode_outcome json_loads
                   (run_mongosh (default PNone (dict_get items "db_id"))
                      (js_script pq)) in
       let q_id := default PNone (dict_get items "question_id") in
       if is_error_text pr then
         Ok (mkScore (correct_count st) (total_count st + 1)
               (execution_errors st + 1)
               (log_file st ++ [LogExecutionError q_id (PStr pq) pr]))
       else if compare_results float_repr gr pr then
         Ok (mkScore (correct_count st + 1) (total_count st + 1)
               (execution_errors st) (log_file st))
       else
         Ok (mkScore (correct_count st) (total_count st + 1)
               (execution_errors st)
               (log_file st ++ [LogMismatch q_id (PStr gq) (PStr pq) gr pr]))).
Proof.
  intros Hg Hp Hsafe. unfold process_entry. cbn [entry_get]. rewrite Hg, Hp.
  cbn [default from_option id mbind result_bind].
  destruct (execute_str_ok run_mongosh json_loads
              (default PNone (dict_get items "db_id")) gq) as (gr & ->).
  exists gr. cbn [mbind result_bind].
  unfold execute_mongo_query at 1.
  rewrite (accepted_query_act json_loads _ pq Hsafe).
  reflexivity.
Qed.

(** X13: when the shell run of an accepted predicted query prints an error,
    ends with a return code other than 0, gives output that does not decode
    or raises an exception other than that of a missing program, the record
    adds one to the error tally, is not counted correct and is not logged
    as a mismatch. *)
Theorem shell_failure_tallied float_repr run_mongosh json_loads st items gq pq :
  dict_get items "gold_mql" = Some (PStr gq) ->
  dict_get items "generated_mql" = Some (PStr pq) ->
  ~ unsafe_or_empty pq ->
  shell_failure json_loads
    (run_mongosh (default PNone (dict_get items "db_id")) (js_script pq)) ->
  exists st',
    process_entry float_repr run_mongosh json_loads st (PDict items) = Ok st'
    /\ counted ExecutionError st st'.
Proof.
  intros Hg Hp Hsafe Hfail.
  destruct (process_entry_text_queries float_repr run_mongosh json_loads st
              items gq pq Hg Hp Hsafe) as (gr & ->).
  cbn zeta. rewrite (shell_failure_error_text _ _ Hfail).
  eexists. split; [reflexivity|]. unfold counted.
  cbn [total_count execution_errors correct_count log_file].
  rewrite count_mismatches_app. cbn [is_mismatch]. repeat split; lia.
Qed.

Lemma bench_oops_accepted : ~ unsafe_or_empty "db.users.oops()".
Proof. apply not_unsafe_by_check; [discriminate | reflexivity]. Qed.

Lemma shell_failure_tallied_witness :
  shell_failure Bench.json_loads
    (Bench.run_mongosh (PStr "shop") (js_script "db.users.oops()"))
  /\ exists st',
       process_entry Bench.float_repr Bench.run_mongosh Bench.json_loads
         initial_state (Bench.entry 2 "db.users.find()" "db.users.oops()")
       = Ok st'
       /\ counted ExecutionError initial_state st'.
Proof.
  assert (shell_failure Bench.json_loads
            (Bench.run_mongosh (PStr "shop") (js_script "db.users.oops()")))
    as Hf by (left; reflexivity).
  split; [exact Hf|].
  exact (shell_failure_tallied Bench.float_repr Bench.run_mongosh
           Bench.json_loads initial_state
           [("question_id", PInt 2); ("db_id", PStr "shop");
            ("gold_mql", PStr "db.users.find()");
            ("generated_mql", PStr "db.users.oops()")]
           "db.users.find()" "db.users.oops()" eq_refl eq_refl
           bench_oops_accepted Hf).
Defined.

(** X14: when the shell program of an accepted predicted query is not
    found, the result is the text MONGOSH_NOT_FOUND, which has no ERROR in
    it: the record adds nothing to the error tally and is logged as a
    mismatch. *)
Theorem shell_not_found_is_mismatch float_repr run_mongosh json_loads st items gq pq :
  dict_get items "gold_mql" = Some (PStr gq) ->
  dict_get items "generated_mql" = Some (PStr pq) ->
  ~ unsafe_or_empty pq ->
  run_mongosh (default PNone (dict_get items "db_id")) (js_script pq)
  = FileNotFound ->
  exists st',
    process_entry float_repr run_mongosh json_loads st (PDict items) = Ok st'
    /\ counted Incorrect st st'.
Proof.
  intros Hg Hp Hsafe Hnf.
  destruct (process_entry_text_queries float_repr run_mongosh json_loads st
              items gq pq Hg Hp Hsafe) as (gr & ->).
  cbn zeta. rewrite Hnf. cbn [decode_outcome].
  change (is_error_text (PStr "MONGOSH_NOT_FOUND")) with false. cbn iota.
  rewrite compare_results_str_r.
  eexists. split; [reflexivity|]. unfold counted.
  cbn [total_count execution_errors correct_count log_file].
  rewrite count_mismatches_app. cbn [is_mismatch]. repeat split; lia.
Qed.

Lemma shell_not_found_is_mismatch_witness :
  Bench.run_mongosh (PStr "shop") (js_script "db.orders.find()") = FileNotFound
  /\ exists st',
       process_entry Bench.float_repr Bench.run_mongosh Bench.json_loads
         initial_state Bench.lost_entry = Ok st'
       /\ counted Incorrect initial_state st'.
Proof.
  split; [reflexivity|].
  apply (shell_not_found_is_mismatch Bench.float_repr Bench.run_mongosh
           Bench.json_loads initial_state
           [("question_id", PInt 5); ("db_id", PStr "shop");
            ("gold_mql", PStr "db.users.find()");
            ("generated_mql", PStr "db.orders.find()")]
           "db.users.find()" "db.orders.find()" eq_refl eq_refl).
  - apply not_unsafe_by_check; [discriminate | reflexivity].
  - reflexivity.
Defined.

(** ** Batches in parts and in another order *)

Section Shift.

Variable float_repr : spec_float -> string.
Variable run_mongosh : pyval -> string -> proc_outcome.
Variable json_loads : string -> loads_outcome.

#[local] Abbreviation step := (process_entry float_repr run_mongosh json_loads).
#[local] Abbreviation loop := (run_loop float_repr run_mongosh json_loads).

Lemma advanced_initial d : advanced d initial_state d.
Proof. unfold advanced. cbn. repeat split; lia. Qed.

Lemma advanced_trans d1 d2 st st1 st2 :
  advanced d1 st st1 -> advanced d2 st1 st2 ->
  advanced (mkScore (correct_count d1 + correct_count d2)
              (total_count d1 + total_count d2)
              (execution_errors d1 + execution_errors d2)
              (log_file d1 ++ log_file d2)%list) st st2.
Proof.
  unfold advanced. cbn. intros (? & ? & ? & E1) (? & ? & ? & E2).
  rewrite E2, E1, <- app_assoc. repeat split; lia.
Qed.

(** What one record does to the state does not depend on the state. *)
Lemma step_advances entry st st' :
  step st entry = Ok st' ->
  exists d, total_count d = 1
            /\ forall su, exists su', step su entry = Ok su' /\ advanced d su su'.
Proof.
  unfold process_entry. intros H. bind_cases H.
  destruct (is_error_text _) eqn:Eerr;
    [|destruct (compare_results _ _ _) eqn:Ecmp]; clear H.
  - eexists (mkScore 0 1 1 [_]). split; [reflexivity|]. intros su.
    eexists. split; [bind_replay; rewrite Eerr; reflexivity|].
    unfold advanced. cbn. repeat split; lia.
  - eexists (mkScore 1 1 0 []). split; [reflexivity|]. intros su.
    eexists. split; [bind_replay; rewrite Eerr, Ecmp; reflexivity|].
    unfold advanced. cbn. rewrite app_nil_r. repeat split; lia.
  - eexists (mkScore 0 1 0 [_]). split; [reflexivity|]. intros su.
    eexists. split; [bind_replay; rewrite Eerr, Ecmp; reflexivity|].
    unfold advanced. cbn. repeat split; lia.
Qed.

Lemma loop_advances data : forall st st',
  loop st data = Ok st' ->
  exists d, total_count d = Z.of_nat (length data)
            /\ forall su, exists su', loop su data = Ok su' /\ advanced d su su'.
Proof.
  induction data as [|entry data IH]; intros st st' H; cbn [run_loop] in H.
  - exists initial_state. split; [reflexivity|]. intros su. exists su.
    split; [reflexivity|]. unfold advanced. cbn.
    rewrite app_nil_r. repeat split; lia.
  - destruct (step st entry) as [st1|] eqn:E; [|discriminate H].
    cbn [mbind result_bind] in H.
    destruct (step_advances _ _ _ E) as (d1 & Ht1 & H1).
    destruct (IH _ _ H) as (d2 & Ht2 & H2).
    eexists. split; [|intros su].
    2: { destruct (H1 su) as (su1 & E1 & A1).
         destruct (H2 su1) as (su2 & E2 & A2).
         exists su2. cbn [run_loop]. rewrite E1. cbn [mbind result_bind].
         split; [exact E2 | exact (advanced_trans _ _ _ _ _ A1 A2)]. }
    cbn [total_count length]. lia.
Qed.

Lemma loop_app d1 d2 st :
  loop st (d1 ++ d2) = loop st d1 ≫= fun st' => loop st' d2.
Proof.
  revert st. induction d1 as [|entry d1 IH]; intros st; [reflexivity|].
  cbn [app run_loop]. destruct (step st entry); cbn [mbind result_bind];
    [apply IH | reflexivity].
Qed.

End Shift.

(** X15: a batch run in two parts gives, part by part, what the whole batch
    gives: the counters of the whole are the sums of those of the parts,
    and its log is the log of the first part followed by that of the
    second. *)
Theorem batch_in_two_parts float_repr run_mongosh json_loads d1 d2 st1 st2 :
  run_loop float_repr run_mongosh json_loads initial_state d1 = Ok st1 ->
  run_loop float_repr run_mongosh json_loads initial_state d2 = Ok st2 ->
  exists st,
    run_loop float_repr run_mongosh json_loads initial_state (d1 ++ d2) = Ok st
    /\ correct_count st = correct_count st1 + correct_count st2
    /\ total_count st = total_count st1 + total_count st2
    /\ execution_errors st = execution_errors st1 + execution_errors st2
    /\ log_file st = (log_file st1 ++ log_file st2)%list.
Proof.
  intros H1 H2. rewrite loop_app, H1. cbn [mbind result_bind].
  destruct (loop_advances _ _ _ _ _ _ H2) as (d & _ & Hd).
  destruct (Hd initial_state) as (s0 & E0 & A0).
  rewrite H2 in E0. injection E0 as <-.
  destruct (Hd st1) as (st & -> & A).
  exists st. split; [reflexivity|].
  destruct A0 as (Ec & Et & Ee & El), A as (Ac & At & Ae & Al).
  cbn in Ec, Et, Ee, El.
  rewrite Ac, At, Ae, Al, Ec, Et, Ee, El. repeat split.
Qed.

Lemma batch_in_two_parts_witness :
  exists st,
    Bench.run (Bench.sample_batch ++ [Bench.lost_entry]) = Ok st
    /\ total_count st = 4
    /\ correct_count st = 1
    /\ execution_errors st = 1.
Proof.
  destruct (Bench.run Bench.sample_batch) as [st1|] eqn:E1;
    [|vm_compute in E1; discriminate E1].
  destruct (Bench.run [Bench.lost_entry]) as [st2|] eqn:E2;
    [|vm_compute in E2; discriminate E2].
  destruct (batch_in_two_parts Bench.float_repr Bench.run_mongosh
              Bench.json_loads _ _ st1 st2 E1 E2)
    as (st & Hst & Hc & Ht & He & _).
  exists st. split; [exact Hst|].
  vm_compute in E1, E2. injection E1 as <-. injection E2 as <-.
  repeat split; assumption.
Defined.

Lemma run_loop_permutation float_repr run_mongosh json_loads d d' :
  d ≡ₚ d' ->
  forall st s,
    run_loop float_repr run_mongosh json_loads st d = Ok s ->
    exists s',
      run_loop float_repr run_mongosh json_loads st d' = Ok s'
      /\ correct_count s' = correct_count s
      /\ total_count s' = total_count s
      /\ execution_errors s' = execution_errors s.
Proof.
  induction 1 as [|x l l' Hp IH|x y l|l1 l2 l3 H12 IH12 H23 IH23];
    intros st s H.
  - exists s. auto.
  - cbn [run_loop] in *.
    destruct (process_entry float_repr run_mongosh json_loads st x) as [st1|];
      [|discriminate H].
    cbn [mbind result_bind] in *. now apply IH.
  - cbn [run_loop] in *.
    destruct (process_entry float_repr run_mongosh json_loads st y)
      as [a|] eqn:Ey; [|discriminate H].
    cbn [mbind result_bind] in H.
    destruct (process_entry float_repr run_mongosh json_loads a x)
      as [b|] eqn:Ex; [|discriminate H].
    cbn [mbind result_bind] in H.
    destruct (step_advances _ _ _ _ _ _ Ey) as (dy & _ & Hy).
    destruct (step_advances _ _ _ _ _ _ Ex) as (dx & _ & Hx).
    destruct (loop_advances _ _ _ _ _ _ H) as (dl & _ & Hl).
    destruct (Hy st) as (a0 & Ea0 & Aa). rewrite Ey in Ea0. injection Ea0 as <-.
    destruct (Hx a) as (b0 & Eb0 & Ab). rewrite Ex in Eb0. injection Eb0 as <-.
    destruct (Hl b) as (s0 & Es0 & As). rewrite H in Es0. injection Es0 as <-.
    destruct (Hx st) as (a' & -> & Aa'). cbn [mbind result_bind].
    destruct (Hy a') as (b' & -> & Ab'). cbn [mbind result_bind].
    destruct (Hl b') as (s' & -> & As').
    exists s'. split; [reflexivity|].
    unfold advanced in *. repeat split; lia.
  - destruct (IH12 _ _ H) as (s2 & H2 & Ec & Et & Ee).
    destruct (IH23 _ _ H2) as (s3 & H3 & Ec' & Et' & Ee').
    exists s3. repeat split; congruence.
Qed.

(** X16: the report does not depend on the order of the records: a batch
    that runs to its end gives the same report in every other order. *)
Theorem report_order_independent float_repr run_mongosh json_loads d d' r :
  d ≡ₚ d' ->
  main float_repr run_mongosh json_loads d = Ok r ->
  main float_repr run_mongosh json_loads d' = Ok r.
Proof.
  unfold main. intros Hp H.
  destruct (run_loop float_repr run_mongosh json_loads initial_state d)
    as [s|] eqn:E; [|discriminate H].
  destruct (run_loop_permutation _ _ _ _ _ Hp _ _ E) as (s' & -> & Ec & Et & Ee).
  cbn [mbind result_bind] in *. rewrite <- H. unfold report.
  now rewrite Ec, Et, Ee.
Qed.

Lemma report_order_independent_witness :
  exists r,
    main Bench.float_repr Bench.run_mongosh Bench.json_loads Bench.sample_batch
    = Ok r
    /\ main Bench.float_repr Bench.run_mongosh Bench.json_loads
         (rev Bench.sample_batch) = Ok r.
Proof.
  destruct (main Bench.float_repr Bench.run_mongosh Bench.json_loads
              Bench.sample_batch) as [r|] eqn:E;
    [|vm_compute in E; discriminate E].
  exists r. split; [reflexivity|].
  apply (report_order_independent _ _ _ Bench.sample_batch); [|exact E].
  apply Permutation_rev.
Defined.

(** ** The error marker in the output *)

Lemma str_in_empty w : w <> "" -> Text.str_in w "" = false.
Proof. destruct w; [congruence | reflexivity]. Qed.

Lemma str_in_lstrip c w s :
  Text.isspace c = false ->
  Text.str_in (String c w) s = true ->
  Text.str_in (String c w) (Text.lstrip s) = true.
Proof.
  intros Hc. induction s as [|d s IH]; [auto|].
  cbn [Text.lstrip]. destruct (Text.isspace d) eqn:Hd; [|auto].
  cbn [Text.str_in String.prefix].
  destruct (ascii_dec c d) as [->|_]; [congruence|]. exact IH.
Qed.

Lemma prefix_rstrip w s :
  w <> "" -> Text.rstrip w = w ->
  String.prefix w s = true -> String.prefix w (Text.rstrip s) = true.
Proof.
  revert s. induction w as [|c w IH]; intros s Hne Hw H; [congruence|].
  destruct s as [|d s]; [discriminate H|]. cbn [String.prefix] in H.
  destruct (ascii_dec c d) as [<-|]; [|discriminate H].
  cbn [Text.rstrip] in Hw. cbn [Text.rstrip].
  destruct (Text.rstrip w) as [|c' r] eqn:Er.
  - destruct (Text.isspace c); [discriminate Hw|]. injection Hw as <-.
    destruct (Text.rstrip s); cbn [String.prefix];
      destruct (ascii_dec c c); try contradiction; reflexivity.
  - injection Hw as <-.
    assert (String.prefix (String c' r) (Text.rstrip s) = true) as Hp
        by (apply IH; [discriminate | reflexivity | exact H]).
    destruct (Text.rstrip s) as [|e t]; [discriminate Hp|].
    cbn [String.prefix]. destruct (ascii_dec c c); [exact Hp | contradiction].
Qed.

Lemma str_in_rstrip w s :
  w <> "" -> Text.rstrip w = w ->
  Text.str_in w s = true -> Text.str_in w (Text.rstrip s) = true.
Proof.
  intros Hne Hw. induction s as [|d s IH]; intros H.
  - now rewrite (str_in_empty w Hne) in H.
  - cbn [Text.str_in] in H. apply orb_true_iff in H as [H | H].
    + now apply str_in_prefix, prefix_rstrip.
    + specialize (IH H). cbn [Text.rstrip].
      destruct (Text.rstrip s) as [|e t].
      * now rewrite (str_in_empty w Hne) in IH.
      * cbn [Text.str_in]. cbn [Text.str_in] in IH. rewrite IH.
        apply orb_true_r.
Qed.

Lemma error_marker_survives_strip s :
  Text.str_in "ERROR:" s = true ->
  Text.str_in "ERROR:" (Text.strip s) = true.
Proof.
  intros H. unfold Text.strip.
  apply str_in_rstrip; [discriminate | reflexivity|].
  now apply str_in_lstrip.
Qed.

(** X17: an output with the marker ERROR: anywhere in it is reported as an
    execution error, also when the return code is 0 and the output is data
    that decodes. *)
Theorem error_marker_anywhere json_loads stdout returncode :
  Text.str_in "ERROR:" stdout = true ->
  decode_outcome json_loads (Completed stdout returncode)
  = PStr ("EXECUTION_ERROR: " ++ Text.strip stdout).
Proof.
  intros H. cbn [decode_outcome].
  now rewrite (error_marker_survives_strip stdout H).
Qed.

Lemma error_marker_anywhere_witness :
  Text.str_in "ERROR:" Bench.out_marked = true
  /\ decode_outcome Bench.json_loads (Completed Bench.out_marked 0)
     = PStr ("EXECUTION_ERROR: " ++ Bench.out_marked).
Proof.
  split; [reflexivity|].
  rewrite (error_marker_anywhere Bench.json_loads Bench.out_marked 0 eq_refl).
  reflexivity.
Defined.

(** ** The same result on both sides *)

(** X18: a record whose gold run and predicted run return the same value
    is counted by that value alone, whenever the loop body completes on
    it: as an execution error when the value is a text with ERROR in it,
    as correct when it is a list or a number other than NaN, and as
    incorrect when it is a bare document, another text, null or NaN. This
    is about the two results: two runs of one query text need not return
    the same value. *)
Theorem equal_results_verdict float_repr run_mongosh json_loads st entry v st' :
  entry_results run_mongosh json_loads entry = Ok (v, v) ->
  process_entry float_repr run_mongosh json_loads st entry = Ok st' ->
  counted (same_result_verdict v) st st'.
Proof.
  intros Hr Hst.
  destruct (process_entry_counted float_repr run_mongosh json_loads st _ _ Hr)
    as (st1 & Hst1 & Hc).
  rewrite Hst in Hst1. injection Hst1 as <-.
  assert (judge float_repr (v, v) = same_result_verdict v) as <-;
    [|exact Hc].
  unfold judge, same_result_verdict. cbn [fst snd].
  destruct (is_error_text v); [reflexivity|].
  assert (compare_results float_repr v v
          = match v with
            | PList _ | PBool _ | PInt _ => true
            | PFloat f => negb (is_nan f)
            | PNone | PStr _ | PDict _ => false
            end) as ->.
  { destruct v as [ | b | n | f | s | l | a]; try reflexivity.
    - unfold compare_results. cbn. apply Z.eqb_refl.
    - unfold compare_results. cbn. apply Z.eqb_refl.
    - unfold compare_results.
      cbn [isinstance_str is_None isinstance_number orb andb py_eq
             as_number num_eq].
      apply SFeqb_refl.
    - apply compare_results_lists_iff; [reflexivity | right; reflexivity]. }
  destruct v as [ | b | n | f | s | l | a]; try destruct (is_nan f);
    reflexivity.
Qed.

Lemma equal_results_verdict_witness :
  entry_results Bench.run_mongosh Bench.json_loads
    (Bench.entry 8 "db.users.count()" "db.users.count();")
  = Ok (PInt 2, PInt 2)
  /\ exists st',
       process_entry Bench.float_repr Bench.run_mongosh Bench.json_loads
         initial_state (Bench.entry 8 "db.users.count()" "db.users.count();")
       = Ok st'
       /\ counted Correct initial_state st'.
Proof.
  assert (entry_results Bench.run_mongosh Bench.json_loads
            (Bench.entry 8 "db.users.count()" "db.users.count();")
          = Ok (PInt 2, PInt 2)) as Hr by (vm_compute; reflexivity).
  split; [exact Hr|].
  destruct (process_entry Bench.float_repr Bench.run_mongosh Bench.json_loads
              initial_state
              (Bench.entry 8 "db.users.count()" "db.users.count();"))
    as [st'|e] eqn:E; [|vm_compute in E; discriminate E].
  exists st'. split; [reflexivity|].
  exact (equal_results_verdict Bench.float_repr Bench.run_mongosh
           Bench.json_loads initial_state _ (PInt 2) st' Hr E).
Defined.
